(** * forms-avancados-react: the registration form of [src/App.tsx]

    A shallow embedding of the one source file of the repository: the zod
    schema [createUserFormSchema], the submit handler [createUser], the
    field-array button [addNewTech], and the part of react-hook-form's
    [handleSubmit] that decides whether the handler runs.

    Conventions.
    - A JavaScript string is a [string]: a sequence of code units below 256.
      White space and lower case are ECMAScript's on that range.  Upper case
      follows the locale of the host and is one of the tables of [Runtime].
    - A JavaScript number is a [number]: NaN, the two infinities, or the
      rational value of a finite double.
    - A JavaScript exception is an [Abrupt] completion; the source has no
      [try], so an exception ends whatever was running.
    - What the runtime and the schema library decide by tables of their own
      (the e-mail pattern, the reading and printing of numerals, the upper
      case of the locale) is gathered in the class [Runtime]; the theorems
      hold for every instance. *)

From Stdlib Require Import String Ascii List Bool Arith ZArith QArith Lia.
Import ListNotations.

Local Close Scope Q_scope.
Local Open Scope string_scope.
Local Open Scope list_scope.

(** ** Completions *)

Inductive JsError : Type :=
| TypeError
| Error (message : string).

Inductive Completion (A : Type) : Type :=
| Normal (a : A)
| Abrupt (e : JsError).

Arguments Normal {A} a.
Arguments Abrupt {A} e.

Definition bindC {A B : Type} (c : Completion A) (k : A -> Completion B)
  : Completion B :=
  match c with
  | Normal a => k a
  | Abrupt e => Abrupt e
  end.

Declare Scope js_scope.
Delimit Scope js_scope with js.
Notation "'let!' x ':=' c 'in' k" := (bindC c (fun x => k))
  (at level 10, x pattern, c at level 100, k at level 200) : js_scope.
Notation "x |> f" := (f x)
  (at level 45, left associativity, only parsing) : js_scope.
Local Open Scope js_scope.

(** [Array.prototype.map] with a callback that may throw: the first
    exception ends the traversal. *)
Fixpoint mapC {A B : Type} (f : A -> Completion B) (l : list A)
  : Completion (list B) :=
  match l with
  | [] => Normal []
  | x :: rest =>
      let! y := f x in
      let! ys := mapC f rest in
      Normal (y :: ys)
  end.

(** ** Strings *)

Module JsString.

Definition isUpperAscii (c : ascii) : bool :=
  let n := nat_of_ascii c in (65 <=? n)%nat && (n <=? 90)%nat.

Definition isLowerAscii (c : ascii) : bool :=
  let n := nat_of_ascii c in (97 <=? n)%nat && (n <=? 122)%nat.

(** The capital letters of the code units 192 to 222; 215 is the
    multiplication sign. *)
Definition isUpperLatin1 (c : ascii) : bool :=
  let n := nat_of_ascii c in
  (192 <=? n)%nat && (n <=? 222)%nat && negb (n =? 215)%nat.

(** The lower case of one code unit: the letters A to Z and the capital
    letters of 192 to 222 move up by 32. *)
Definition lowerChar (c : ascii) : ascii :=
  if isUpperAscii c || isUpperLatin1 c
  then ascii_of_nat (nat_of_ascii c + 32)
  else c.

(** [String.prototype.toLowerCase]. *)
Fixpoint toLowerCase (s : string) : string :=
  match s with
  | EmptyString => EmptyString
  | String c rest => String (lowerChar c) (toLowerCase rest)
  end.

(** White space and line terminators among the code units below 256: TAB,
    LF, VT, FF, CR, SP and NBSP (160). *)
Definition isWhiteSpace (c : ascii) : bool :=
  let n := nat_of_ascii c in
  ((9 <=? n)%nat && (n <=? 13)%nat) || (n =? 32)%nat || (n =? 160)%nat.

Fixpoint trimStart (s : string) : string :=
  match s with
  | EmptyString => EmptyString
  | String c rest => if isWhiteSpace c then trimStart rest else s
  end.

Fixpoint trimEnd (s : string) : string :=
  match s with
  | EmptyString => EmptyString
  | String c rest =>
      match trimEnd rest with
      | EmptyString => if isWhiteSpace c then EmptyString else String c EmptyString
      | kept => String c kept
      end
  end.

(** [String.prototype.trim]. *)
Definition trim (s : string) : string := trimEnd (trimStart s).

(** [s.split(sep)] for a separator of one code unit.  The result is never
    empty: the empty string splits into one empty piece. *)
Fixpoint split (sep : ascii) (s : string) : list string :=
  match s with
  | EmptyString => [EmptyString]
  | String c rest =>
      if Ascii.eqb c sep then EmptyString :: split sep rest
      else match split sep rest with
           | piece :: pieces => String c piece :: pieces
           | [] => [String c EmptyString]
           end
  end.

(** [pieces.join(sep)]. *)
Fixpoint join (sep : string) (pieces : list string) : string :=
  match pieces with
  | [] => EmptyString
  | [piece] => piece
  | piece :: rest => piece ++ sep ++ join sep rest
  end.

(** [s.endsWith(suffix)]. *)
Definition endsWith (s suffix : string) : bool :=
  let n := String.length s in
  let m := String.length suffix in
  (m <=? n)%nat && String.eqb (substring (n - m) m s) suffix.

(** [s[0]]: the first code unit as a string, or [undefined]. *)
Definition charAt0 (s : string) : option string :=
  match s with
  | EmptyString => None
  | String c _ => Some (String c EmptyString)
  end.

(** [s.substring(1)]. *)
Definition substring1 (s : string) : string :=
  match s with
  | EmptyString => EmptyString
  | String _ rest => rest
  end.

End JsString.

(** ** Numbers *)

Inductive number : Type :=
| NaN
| NegInfinity
| Finite (q : Q)
| PosInfinity.

Module JsNumber.

Definition Qltb (x y : Q) : bool :=
  (Qnum x * QDen y <? Qnum y * QDen x)%Z.

(** [a < b]. *)
Definition lt (a b : number) : bool :=
  match a, b with
  | NaN, _ | _, NaN => false
  | _, NegInfinity => false
  | NegInfinity, _ => true
  | PosInfinity, _ => false
  | Finite _, PosInfinity => true
  | Finite x, Finite y => Qltb x y
  end.

(** [a > b]. *)
Definition gt (a b : number) : bool := lt b a.

(** [a <= b]. *)
Definition le (a b : number) : bool :=
  match a, b with
  | NaN, _ | _, NaN => false
  | NegInfinity, _ => true
  | _, PosInfinity => true
  | _, NegInfinity => false
  | PosInfinity, _ => false
  | Finite x, Finite y => Qle_bool x y
  end.

Definition isNaN (a : number) : bool :=
  match a with NaN => true | _ => false end.

Definition ofZ (z : Z) : number := Finite (inject_Z z).

End JsNumber.


(** ** What the platform decides

    Four tables the source relies on and does not contain: the pattern
    behind zod's [.email()], which differs between releases of the library;
    ECMAScript's reading of a numeral ([Number(text)]); its printing of a
    finite number; and [String.prototype.toLocaleUpperCase], which follows
    the locale of the host and may give more code units than it was given. *)

Class Runtime : Type := {
  isEmail : string -> bool;
  StringToNumber : string -> number;
  NumberToString : Q -> string;
  toLocaleUpperCase : string -> string
}.

(** ** The data of the form *)

Module File.
(** A DOM [File]: the two properties the source reads, and its bytes. *)
Record t : Type := { name : string; size : Z; bytes : string }.
End File.

(** A DOM [FileList]. *)
Definition FileList : Type := list File.t.

(** [list.item(0)]: the first file, or [null]. *)
Definition item (list : FileList) (index : nat) : option File.t :=
  nth_error list index.

(** The value react-hook-form holds for an [<input>]: the number handed to
    [append], or the text typed into the element. *)
Inductive FieldValue : Type :=
| NumberValue (n : number)
| StringValue (s : string).

(** [Number(value)], the coercion of [z.coerce.number()]. *)
Definition Number `{Runtime} (value : FieldValue) : number :=
  match value with
  | NumberValue n => n
  | StringValue s => StringToNumber s
  end.

Module TechInput.
(** One entry of the field array [techs], as held by the form. *)
Record t : Type := { title : string; knowledge : FieldValue }.
End TechInput.

Module Tech.
(** One entry of [techs] after parsing. *)
Record t : Type := { title : string; knowledge : number }.
End Tech.

Module FormValues.
(** The values the form hands to the resolver.  [avatar] is [None] when the
    value is not a [FileList] (no registered input supplies one). *)
Record t : Type := {
  avatar : option FileList;
  name : string;
  email : string;
  password : string;
  techs : list TechInput.t
}.
End FormValues.

Module CreateUserFormData.
(** [z.infer<typeof createUserFormSchema>], as it is at run time: [avatar]
    is what [list.item(0)] returned, which may be [null]. *)
Record t : Type := {
  avatar : option File.t;
  name : string;
  email : string;
  password : string;
  techs : list Tech.t
}.
End CreateUserFormData.

(** ** zod *)

Inductive PathSegment : Type :=
| Key (key : string)
| Index (index : nat).

Inductive ZodIssueCode : Type :=
| custom
| invalid_type
| invalid_string
| too_small
| too_big.

(** [message] is [None] where the source gives none and the library's
    default text is used. *)
Record ZodIssue : Type := {
  code : ZodIssueCode;
  path : list PathSegment;
  message : option string
}.

(** What [_parse] returns.  [DIRTY_BASE] is a dirty result whose value is the
    base value a [transform] declined to touch: it has the status "dirty"
    and a value of the base type, which nothing in this schema reads. *)
Inductive ParseReturn (A : Type) : Type :=
| OK (value : A)
| DIRTY (value : A)
| DIRTY_BASE
| INVALID.

Arguments OK {A} value.
Arguments DIRTY {A} value.
Arguments DIRTY_BASE {A}.
Arguments INVALID {A}.

(** A parse ends with a return value and the issues it reported, or with
    the exception a callback threw.  The list says which issues were
    reported; it keeps them in the order of the schema, which is not always
    the order in which the promises of the library report them. *)
Definition ParseResult (A : Type) : Type :=
  Completion (ParseReturn A * list ZodIssue).

Definition ZodType (Input Output : Type) : Type :=
  list PathSegment -> Input -> ParseResult Output.

Definition isValid {A : Type} (r : ParseReturn A) : bool :=
  match r with OK _ => true | _ => false end.

(** [ParseStatus.mergeObjectSync], one key at a time: an aborted key aborts
    the object, a dirty one makes it dirty. *)
Definition mergeObject {A B : Type}
  (object : ParseReturn (A -> B)) (field : ParseReturn A) : ParseReturn B :=
  match object, field with
  | INVALID, _ | _, INVALID => INVALID
  | OK make, OK a => OK (make a)
  | OK make, DIRTY a | DIRTY make, OK a | DIRTY make, DIRTY a => DIRTY (make a)
  | _, _ => DIRTY_BASE
  end.

(** [ParseStatus.mergeArray]. *)
Fixpoint mergeArray {A : Type} (results : list (ParseReturn A))
  : ParseReturn (list A) :=
  match results with
  | [] => OK []
  | r :: rest => mergeObject (mergeObject (OK cons) r) (mergeArray rest)
  end.

Definition dirty {A : Type} (r : ParseReturn A) : ParseReturn A :=
  match r with
  | OK value => DIRTY value
  | other => other
  end.

Module ZodString.

Inductive Check : Type :=
| check_min (value : nat) (message : option string)
| check_email (message : option string)
| check_toLowerCase.

(** [z.string()] with its checks, in the order they were added. *)
Definition t : Type := list Check.

Definition create : t := [].
Definition min (minLength : nat) (message : string) (schema : t) : t :=
  schema ++ [check_min minLength (Some message)].
Definition nonempty (message : string) (schema : t) : t :=
  schema ++ [check_min 1 (Some message)].
Definition email (message : string) (schema : t) : t :=
  schema ++ [check_email (Some message)].
Definition toLowerCase (schema : t) : t :=
  schema ++ [check_toLowerCase].

(** The loop over [this._def.checks]: a failed check reports an issue and
    makes the status dirty; [toLowerCase] rewrites the data in place. *)
Fixpoint runChecks `{Runtime} (checks : list Check) (at_ : list PathSegment)
  (data : string) : ParseReturn string * list ZodIssue :=
  match checks with
  | [] => (OK data, [])
  | check_min value message :: rest =>
      let (r, issues) := runChecks rest at_ data in
      if (String.length data <? value)%nat
      then (dirty r, Build_ZodIssue too_small at_ message :: issues)
      else (r, issues)
  | check_email message :: rest =>
      let (r, issues) := runChecks rest at_ data in
      if isEmail data
      then (r, issues)
      else (dirty r, Build_ZodIssue invalid_string at_ message :: issues)
  | check_toLowerCase :: rest =>
      runChecks rest at_ (JsString.toLowerCase data)
  end.

Definition _parse `{Runtime} (schema : t) : ZodType string string :=
  fun at_ input => Normal (runChecks schema at_ input).

End ZodString.

Module ZodNumber.

Inductive Check : Type :=
| check_min (value : number) (message : option string)
| check_max (value : number) (message : option string).

(** [z.coerce.number()] with its checks. *)
Definition t : Type := list Check.

Definition create_coerce : t := [].
Definition min (value : Z) (schema : t) : t :=
  schema ++ [check_min (JsNumber.ofZ value) None].
Definition max (value : Z) (schema : t) : t :=
  schema ++ [check_max (JsNumber.ofZ value) None].

Fixpoint runChecks (checks : list Check) (at_ : list PathSegment)
  (data : number) : ParseReturn number * list ZodIssue :=
  match checks with
  | [] => (OK data, [])
  | check_min value message :: rest =>
      let (r, issues) := runChecks rest at_ data in
      if JsNumber.lt data value
      then (dirty r, Build_ZodIssue too_small at_ message :: issues)
      else (r, issues)
  | check_max value message :: rest =>
      let (r, issues) := runChecks rest at_ data in
      if JsNumber.gt data value
      then (dirty r, Build_ZodIssue too_big at_ message :: issues)
      else (r, issues)
  end.

(** The input is coerced with [Number]; NaN is not of type number and
    aborts. *)
Definition _parse `{Runtime} (schema : t) : ZodType FieldValue number :=
  fun at_ input =>
    let data := Number input in
    if JsNumber.isNaN data
    then Normal (INVALID, [Build_ZodIssue invalid_type at_ None])
    else Normal (runChecks schema at_ data).

End ZodNumber.

Module ZodEffects.

(** [schema.refine(check, message)]: an aborted base is handed on; otherwise
    the check runs on the base value, also when the base is dirty, and a
    failed check reports an issue and makes the result dirty.  (After a
    [transform] that declined a dirty base the library would run the check on
    that base value; no schema of this file puts a [refine] there, see
    [avatar_base_never_dirty].) *)
Definition refine {Input Output : Type}
  (check : Output -> Completion bool) (message : string)
  (schema : ZodType Input Output) : ZodType Input Output :=
  fun at_ input =>
    let! (inner, issues) := schema at_ input in
    match inner with
    | INVALID => Normal (INVALID, issues)
    | DIRTY_BASE => Normal (DIRTY_BASE, issues)
    | OK value | DIRTY value =>
        let! passed := check value in
        if passed : bool
        then Normal (inner, issues)
        else Normal (dirty inner,
                     issues ++ [Build_ZodIssue custom at_ (Some message)])
    end.

(** [schema.transform(f)]: [f] runs only on a valid base; any other base is
    returned as it is. *)
Definition transform {Input Base Output : Type}
  (f : Base -> Completion Output)
  (schema : ZodType Input Base) : ZodType Input Output :=
  fun at_ input =>
    let! (base, issues) := schema at_ input in
    match base with
    | OK value => let! result := f value in Normal (OK result, issues)
    | DIRTY _ | DIRTY_BASE => Normal (DIRTY_BASE, issues)
    | INVALID => Normal (INVALID, issues)
    end.

(** [z.instanceof(FileList)]: a custom check whose issue is fatal, so a
    value of another class aborts. *)
Definition instanceof_FileList : ZodType (option FileList) FileList :=
  fun at_ input =>
    match input with
    | Some list => Normal (OK list, [])
    | None => Normal (INVALID, [Build_ZodIssue custom at_ None])
    end.

End ZodEffects.

Module ZodArray.

Record t (Input Output : Type) : Type := {
  element : ZodType Input Output;
  minLength : option (nat * string)
}.
Arguments element {Input Output} _.
Arguments minLength {Input Output} _.

Definition create {Input Output : Type} (schema : ZodType Input Output)
  : t Input Output :=
  {| element := schema; minLength := None |}.

Definition min {Input Output : Type} (minLength : nat) (message : string)
  (schema : t Input Output) : t Input Output :=
  {| element := element schema; minLength := Some (minLength, message) |}.

(** Every item is parsed, at the path of its index. *)
Fixpoint parseItems {Input Output : Type} (schema : ZodType Input Output)
  (at_ : list PathSegment) (index : nat) (items : list Input)
  : Completion (list (ParseReturn Output) * list ZodIssue) :=
  match items with
  | [] => Normal ([], [])
  | item :: rest =>
      let! (r, issues) := schema (at_ ++ [Index index]) item in
      let! (rs, more) := parseItems schema at_ (S index) rest in
      Normal (r :: rs, issues ++ more)
  end.

Definition tooShort {Input Output : Type} (schema : t Input Output)
  (items : list Input) : option string :=
  match minLength schema with
  | Some (value, message) =>
      if (List.length items <? value)%nat then Some message else None
  | None => None
  end.

Definition _parse {Input Output : Type} (schema : t Input Output)
  : ZodType (list Input) (list Output) :=
  fun at_ input =>
    let! (results, issues) := parseItems (element schema) at_ 0 input in
    match tooShort schema input with
    | Some message =>
        Normal (dirty (mergeArray results),
                Build_ZodIssue too_small at_ (Some message) :: issues)
    | None => Normal (mergeArray results, issues)
    end.

End ZodArray.

Module ZodObject.

(** [z.object({...})], built key by key: [create make] is the object with
    no key yet, [make] being the constructor of the parsed record. *)
Definition create {Input Make : Type} (make : Make) : ZodType Input Make :=
  fun _ _ => Normal (OK make, []).

(** One more key: its value is read from the input, parsed at the path of
    the key, and merged into the object. *)
Definition field {Input A B Output : Type} (key : string) (get : Input -> A)
  (schema : ZodType A B) (object : ZodType Input (B -> Output))
  : ZodType Input Output :=
  fun at_ input =>
    let! (sofar, issues) := object at_ input in
    let! (r, more) := schema (at_ ++ [Key key]) (get input) in
    Normal (mergeObject sofar r, issues ++ more).

End ZodObject.

(** [schema.parseAsync(input)] as the resolver sees it: the parsed data, a
    [ZodError] holding the issues, or the exception a callback threw. *)
Inductive SafeParseReturn (A : Type) : Type :=
| success (data : A)
| ZodError (issues : list ZodIssue).

Arguments success {A} data.
Arguments ZodError {A} issues.

Definition parseAsync {Input Output : Type} (schema : ZodType Input Output)
  (input : Input) : Completion (SafeParseReturn Output) :=
  let! (result, issues) := schema [] input in
  match result, issues with
  | OK data, _ => Normal (success data)
  | _, [] => Abrupt (Error "Validation failed but no issues detected.")
  | _, _ => Normal (ZodError issues)
  end.

(** ** JSON.stringify *)

Module JSON.

Local Open Scope string_scope.

(** The values [JSON.stringify] meets in the parsed data.  A [File] has no
    enumerable property of its own and is serialized as the empty object. *)
#[local] Set Warnings "-register-all".
Inductive value : Type :=
| JNull
| JNumber (n : number)
| JString (s : string)
| JArray (items : list value)
| JObject (members : list (string * value)).

Definition LF : string := String (ascii_of_nat 10) EmptyString.
Definition DQUOTE : string := String (ascii_of_nat 34) EmptyString.

Definition hexDigit (n : nat) : ascii :=
  if (n <? 10)%nat then ascii_of_nat (48 + n) else ascii_of_nat (87 + n).

(** One code unit of [QuoteJSONString]. *)
Definition quoteChar (c : ascii) : string :=
  let n := nat_of_ascii c in
  if (n =? 34)%nat then "\" ++ DQUOTE
  else if (n =? 92)%nat then "\\"
  else if (n =? 8)%nat then "\b"
  else if (n =? 9)%nat then "\t"
  else if (n =? 10)%nat then "\n"
  else if (n =? 12)%nat then "\f"
  else if (n =? 13)%nat then "\r"
  else if (n <? 32)%nat
       then "\u00" ++ String (hexDigit (n / 16)) (String (hexDigit (n mod 16)) "")
  else String c "".

Fixpoint quoteBody (s : string) : string :=
  match s with
  | EmptyString => EmptyString
  | String c rest => quoteChar c ++ quoteBody rest
  end.

Definition quote (s : string) : string := DQUOTE ++ quoteBody s ++ DQUOTE.

(** [SerializeJSONProperty] with a gap: [indent] is the current
    indentation. *)
Fixpoint serialize `{Runtime} (gap indent : string) (v : value) : string :=
  match v with
  | JNull => "null"
  | JNumber (Finite q) => NumberToString q
  | JNumber _ => "null"
  | JString s => quote s
  | JArray [] => "[]"
  | JArray items =>
      let inner := indent ++ gap in
      "[" ++ LF ++ inner
          ++ JsString.join ("," ++ LF ++ inner)
               (map (serialize gap inner) items)
          ++ LF ++ indent ++ "]"
  | JObject [] => "{}"
  | JObject members =>
      let inner := indent ++ gap in
      "{" ++ LF ++ inner
          ++ JsString.join ("," ++ LF ++ inner)
               (map (fun member : string * value =>
                       quote (fst member) ++ ": "
                         ++ serialize gap inner (snd member))
                    members)
          ++ LF ++ indent ++ "}"
  end.

Fixpoint spaces (n : nat) : string :=
  match n with
  | O => EmptyString
  | S m => String " " (spaces m)
  end.

(** [JSON.stringify(v, null, space)] for a numeric [space]. *)
Definition stringify `{Runtime} (v : value) (space : nat) : string :=
  serialize (spaces (Nat.min space 10)) EmptyString v.

Definition ofFile (file : option File.t) : value :=
  match file with
  | Some _ => JObject []
  | None => JNull
  end.

Definition ofTech (tech : Tech.t) : value :=
  JObject [("title", JString (Tech.title tech));
           ("knowledge", JNumber (Tech.knowledge tech))].

(** The parsed data as [JSON.stringify] walks it: the keys in the order the
    schema declares them. *)
Definition ofData (data : CreateUserFormData.t) : value :=
  JObject [("avatar", ofFile (CreateUserFormData.avatar data));
           ("name", JString (CreateUserFormData.name data));
           ("email", JString (CreateUserFormData.email data));
           ("password", JString (CreateUserFormData.password data));
           ("techs", JArray (map ofTech (CreateUserFormData.techs data)))].

End JSON.

(** ** The schema of [App.tsx] *)

(** A method call on a value that may be [undefined]: [receiver.method()]
    throws a [TypeError] when there is no receiver. *)
Definition callOn {A B : Type} (receiver : option A) (method : A -> B)
  : Completion B :=
  match receiver with
  | Some this => Normal (method this)
  | None => Abrupt TypeError
  end.

Section Schema.

Context {rt : Runtime}.

(** [(file) => file.size <= 5 * 1024 * 1024]; [file] is what [item(0)]
    returned, so the property read throws on [null]. *)
Definition avatarSizeCheck (file : option File.t) : Completion bool :=
  let! size := callOn file File.size in
  Normal (size <=? 5 * 1024 * 1024)%Z.

(** [(word) => word[0].toLocaleUpperCase().concat(word.substring(1))]. *)
Definition capitalizeWord (word : string) : Completion string :=
  let! first := callOn (JsString.charAt0 word) toLocaleUpperCase in
  Normal (first ++ JsString.substring1 word)%string.

(** The transform of [name]: trim, split on single spaces, capitalize every
    word, join with single spaces. *)
Definition nameTransform (name : string) : Completion string :=
  let! words := mapC capitalizeWord (JsString.split " " (JsString.trim name)) in
  Normal (JsString.join " " words).

(** [(email) => email.endsWith("@boo.com.br")]. *)
Definition emailDomainCheck (email : string) : Completion bool :=
  Normal (JsString.endsWith email "@boo.com.br").

(** [(techs) => techs.some((tech) => tech.knowledge > 50)]. *)
Definition techsCheck (techs : list Tech.t) : Completion bool :=
  Normal (existsb (fun tech => JsNumber.gt (Tech.knowledge tech) (JsNumber.ofZ 50))
            techs).

Definition avatarSchema : ZodType (option FileList) (option File.t) :=
  ZodEffects.instanceof_FileList
  |> ZodEffects.transform (fun list => Normal (item list 0))
  |> ZodEffects.refine avatarSizeCheck "O arquivo precisa ter no máximo 5Mb".

Definition nameSchema : ZodType string string :=
  ZodString.create
  |> ZodString.nonempty "O nome é obrigatório"
  |> ZodString._parse
  |> ZodEffects.transform nameTransform.

Definition emailSchema : ZodType string string :=
  ZodString.create
  |> ZodString.nonempty "O e-mail é obrigatório"
  |> ZodString.email "Formato de e-mail inválido"
  |> ZodString.toLowerCase
  |> ZodString._parse
  |> ZodEffects.refine emailDomainCheck "O e-mail precisa ser da boo".

Definition passwordSchema : ZodType string string :=
  ZodString.create
  |> ZodString.min 6 "A senha precisa de no mínimo 6 caracteres"
  |> ZodString._parse.

Definition titleSchema : ZodType string string :=
  ZodString.create
  |> ZodString.nonempty "O título é obrigatório"
  |> ZodString._parse.

Definition knowledgeSchema : ZodType FieldValue number :=
  ZodNumber.create_coerce
  |> ZodNumber.min 1
  |> ZodNumber.max 100
  |> ZodNumber._parse.

Definition techSchema : ZodType TechInput.t Tech.t :=
  ZodObject.create Tech.Build_t
  |> ZodObject.field "title" TechInput.title titleSchema
  |> ZodObject.field "knowledge" TechInput.knowledge knowledgeSchema.

Definition techsSchema : ZodType (list TechInput.t) (list Tech.t) :=
  ZodArray.create techSchema
  |> ZodArray.min 2 "Insira no mínimo duas tecnologias"
  |> ZodArray._parse
  |> ZodEffects.refine techsCheck "Você está aprendendo!".

Definition createUserFormSchema : ZodType FormValues.t CreateUserFormData.t :=
  ZodObject.create CreateUserFormData.Build_t
  |> ZodObject.field "avatar" FormValues.avatar avatarSchema
  |> ZodObject.field "name" FormValues.name nameSchema
  |> ZodObject.field "email" FormValues.email emailSchema
  |> ZodObject.field "password" FormValues.password passwordSchema
  |> ZodObject.field "techs" FormValues.techs techsSchema.

(** [zodResolver(createUserFormSchema)]: the parsed values, or the errors
    built from the issues of a [ZodError]; any other exception is thrown
    again. *)
Inductive ResolverResult : Type :=
| Values (values : CreateUserFormData.t)
| Errors (errors : list ZodIssue).

Definition zodResolver (values : FormValues.t) : Completion ResolverResult :=
  let! parsed := parseAsync createUserFormSchema values in
  match parsed with
  | success data => Normal (Values data)
  | ZodError issues => Normal (Errors issues)
  end.

End Schema.

(** ** Effects of the page *)

(** What [supabase.storage.from(bucket).upload(path, body)] resolves to:
    [{ data, error }] with one of the two set. *)
Inductive UploadResponse : Type :=
| UploadData (path : string)
| UploadError (message : string).

(** The operations through which the component touches anything outside
    its own expressions: the storage call (awaited), the [useState] setter,
    and the form library's store ([_formValues], [formState.errors], the
    field array). *)
Inductive Effect : Type -> Type :=
| StorageUpload (bucket path : string) (body : File.t) : Effect UploadResponse
| SetOutput (text : string) : Effect unit
| GetValues : Effect FormValues.t
| SetErrors (errors : list ZodIssue) : Effect unit
| Append (value : TechInput.t) : Effect unit.

(** An async function of the page: it returns, throws, or performs an
    effect and goes on with its answer. *)
Inductive Prog (A : Type) : Type :=
| Ret (a : A)
| Throw (e : JsError)
| Do {X : Type} (effect : Effect X) (k : X -> Prog A).

Arguments Ret {A} a.
Arguments Throw {A} e.
Arguments Do {A X} effect k.

Fixpoint bindP {A B : Type} (p : Prog A) (k : A -> Prog B) : Prog B :=
  match p with
  | Ret a => k a
  | Throw e => Throw e
  | Do effect k' => Do effect (fun x => bindP (k' x) k)
  end.

Definition perform {X : Type} (effect : Effect X) : Prog X := Do effect Ret.

Definition liftC {A : Type} (c : Completion A) : Prog A :=
  match c with
  | Normal a => Ret a
  | Abrupt e => Throw e
  end.

Notation "x <- p ;; k" := (bindP p (fun x => k))
  (at level 61, p at next level, right associativity) : js_scope.
Notation "p ;; k" := (bindP p (fun _ => k))
  (at level 61, right associativity) : js_scope.

(** ** The component [App] *)

Section App.

Context {rt : Runtime}.

(** [addNewTech]: [append({ title: "", knowledge: 0 })]. *)
Definition addNewTech : Prog unit :=
  perform (Append {| TechInput.title := EmptyString;
                     TechInput.knowledge := NumberValue (JsNumber.ofZ 0) |}).

(** [createUser]: the arguments of [upload] are read from [data.avatar]
    (a [TypeError] if it is [null]), the upload is awaited, and then the
    output is set to the serialized data. *)
Definition createUser (data : CreateUserFormData.t) : Prog unit :=
  path <- liftC (callOn (CreateUserFormData.avatar data) File.name) ;;
  body <- liftC (callOn (CreateUserFormData.avatar data) (fun file => file)) ;;
  perform (StorageUpload "forms-react" path body) ;;
  perform (SetOutput (JSON.stringify (JSON.ofData data) 2)).

(** [handleSubmit(onValid)]: the form's values go through the resolver;
    with no error the errors are cleared and [onValid] is awaited on the
    parsed values, otherwise the errors are stored. *)
Definition handleSubmit (onValid : CreateUserFormData.t -> Prog unit)
  : Prog unit :=
  values <- perform GetValues ;;
  resolved <- liftC (zodResolver values) ;;
  match resolved with
  | Values data => perform (SetErrors []) ;; onValid data
  | Errors errors => perform (SetErrors errors)
  end.

(** [<form onSubmit={handleSubmit(createUser)}>]. *)
Definition onSubmit : Prog unit := handleSubmit createUser.

End App.

(** ** Running the page *)

(** What the component holds between events. *)
Record AppState : Type := {
  output : string;
  values : FormValues.t;
  errors : list ZodIssue
}.

(** How a storage call ends: the promise is fulfilled with a response, or
    rejected. *)
Definition Remote : Type :=
  string -> string -> File.t -> Completion UploadResponse.

(** What can be observed of a run, in the order it happened. *)
Inductive Event : Type :=
| UploadCalled (bucket path : string) (body : File.t)
| UploadSettled (outcome : Completion UploadResponse)
| OutputSet (text : string).

Record World : Type := { state : AppState; trace : list Event }.

Definition setOutput (text : string) (s : AppState) : AppState :=
  {| output := text; values := values s; errors := errors s |}.

Definition setErrors (e : list ZodIssue) (s : AppState) : AppState :=
  {| output := output s; values := values s; errors := e |}.

Definition setTechs (techs : list TechInput.t) (s : AppState) : AppState :=
  {| output := output s;
     values := {| FormValues.avatar := FormValues.avatar (values s);
                  FormValues.name := FormValues.name (values s);
                  FormValues.email := FormValues.email (values s);
                  FormValues.password := FormValues.password (values s);
                  FormValues.techs := techs |};
     errors := errors s |}.

Definition doEffect (remote : Remote) {X : Type} (effect : Effect X)
  (w : World) : Completion X * World :=
  match effect in Effect X return Completion X * World with
  | StorageUpload bucket path body =>
      let outcome := remote bucket path body in
      (outcome,
       {| state := state w;
          trace := trace w ++ [UploadCalled bucket path body;
                               UploadSettled outcome] |})
  | SetOutput text =>
      (Normal tt,
       {| state := setOutput text (state w);
          trace := trace w ++ [OutputSet text] |})
  | GetValues => (Normal (values (state w)), w)
  | SetErrors e =>
      (Normal tt, {| state := setErrors e (state w); trace := trace w |})
  | Append value =>
      (Normal tt,
       {| state := setTechs (FormValues.techs (values (state w)) ++ [value])
                     (state w);
          trace := trace w |})
  end.

(** A rejected [await] throws, and nothing in the source catches it. *)
Fixpoint run (remote : Remote) {A : Type} (p : Prog A) (w : World)
  : Completion A * World :=
  match p with
  | Ret a => (Normal a, w)
  | Throw e => (Abrupt e, w)
  | Do effect k =>
      match doEffect remote effect w with
      | (Normal x, w') => run remote (k x) w'
      | (Abrupt e, w') => (Abrupt e, w')
      end
  end.

(** The world in which an event handler starts: nothing observed yet. *)
Definition start (s : AppState) : World := {| state := s; trace := [] |}.

(** One click on "Adicionar", and one submission of the form. *)
Definition clickAdicionar (remote : Remote) (s : AppState) : World :=
  snd (run remote addNewTech (start s)).

Definition submit `{Runtime} (remote : Remote) (s : AppState) : World :=
  snd (run remote onSubmit (start s)).

Definition uploads (events : list Event) : list (string * string * File.t) :=
  flat_map (fun event =>
              match event with
              | UploadCalled bucket path body => [(bucket, path, body)]
              | _ => []
              end) events.

(** ** A runtime for the examples

    An instance of [Runtime] on which the examples below are evaluated: the
    e-mail pattern of zod 3.22, ECMAScript's reading of a numeral rounded to
    the nearest double, its printing of a double by its shortest decimal,
    and the upper case of a host whose locale has no rule of its own, for
    code units below 256.  (Two of these have their upper case beyond that
    range, 181 and 255; this instance leaves them as they are, and no
    example holds them.) *)

Module Example.

Definition isDigit (c : ascii) : bool :=
  let n := nat_of_ascii c in (48 <=? n)%nat && (n <=? 57)%nat.

Definition isLetter (c : ascii) : bool :=
  JsString.isUpperAscii c || JsString.isLowerAscii c.

Definition isAlnum (c : ascii) : bool := isLetter c || isDigit c.

Definition oneOf (chars : string) (c : ascii) : bool :=
  existsb (Ascii.eqb c) (list_ascii_of_string chars).

Definition all (p : ascii -> bool) (s : string) : bool :=
  forallb p (list_ascii_of_string s).

Fixpoint hasDotDot (s : string) : bool :=
  match s with
  | String "." (String "." _) => true
  | String _ rest => hasDotDot rest
  | EmptyString => false
  end.

(** The local part: any number of letters, digits, underscores and of the
    code units from the plus sign to the full stop (plus, comma, hyphen,
    full stop), then one letter, digit, underscore, plus or hyphen. *)
Definition localPart (s : string) : bool :=
  all (fun c => isAlnum c || oneOf "_+,-." c) s
  && match rev (list_ascii_of_string s) with
     | last :: _ => isAlnum last || oneOf "_+-" last
     | [] => false
     end.

(** A label of the domain: a letter or digit, then letters, digits and
    hyphens. *)
Definition domainLabel (s : string) : bool :=
  match s with
  | String c rest => isAlnum c && all (fun d => isAlnum d || oneOf "-" d) rest
  | EmptyString => false
  end.

(** The domain: one label or more, each followed by a full stop, then two
    letters or more. *)
Definition domainPart (s : string) : bool :=
  match rev (JsString.split "." s) with
  | tld :: (_ :: _) as labels =>
      (2 <=? String.length tld)%nat && all isLetter tld
      && forallb domainLabel labels
  | _ => false
  end.

(** The whole pattern: no leading dot, no two dots in a row, a local part,
    an at sign, and a domain; without regard to case. *)
Definition emailRegex (s : string) : bool :=
  match s with String "." _ => false | _ => true end
  && negb (hasDotDot s)
  && match JsString.split "@" s with
     | [localName; domain] => localPart localName && domainPart domain
     | _ => false
     end.

(** *** Doubles *)

(** The double nearest to a rational, ties to the even significand; beyond
    the largest double, an infinity. *)
Definition roundToDouble (q : Q) : number :=
  let a := Z.abs (Qnum q) in
  let d := Z.pos (Qden q) in
  if (a =? 0)%Z then Finite (0 # 1)
  else
    let e0 := (Z.log2 a - Z.log2 d)%Z in
    let below :=
      if (0 <=? e0)%Z then (a <? d * 2 ^ e0)%Z else (a * 2 ^ (- e0) <? d)%Z in
    let e := if below then (e0 - 1)%Z else e0 in
    let p := Z.max (e - 52) (-1074) in
    let num := if (p <? 0)%Z then (a * 2 ^ (- p))%Z else a in
    let den := if (p <? 0)%Z then d else (d * 2 ^ p)%Z in
    let m0 := (num / den)%Z in
    let r := (num mod den)%Z in
    let m :=
      if (2 * r <? den)%Z then m0
      else if (den <? 2 * r)%Z then (m0 + 1)%Z
      else if Z.even m0 then m0 else (m0 + 1)%Z in
    let negative := (Qnum q <? 0)%Z in
    if (0 <=? p)%Z
    then
      if (2 ^ 1024 <=? m * 2 ^ p)%Z
      then if negative then NegInfinity else PosInfinity
      else Finite ((if negative then - (m * 2 ^ p) else m * 2 ^ p)%Z # 1)
    else Finite (Qred ((if negative then - m else m)%Z # Z.to_pos (2 ^ (- p)))).

(** *** Reading a numeral *)

Definition digitValue (c : ascii) : option Z :=
  let n := nat_of_ascii c in
  if isDigit c then Some (Z.of_nat (n - 48))
  else if (97 <=? n)%nat && (n <=? 102)%nat then Some (Z.of_nat (n - 87))
  else if (65 <=? n)%nat && (n <=? 70)%nat then Some (Z.of_nat (n - 55))
  else None.

(** The longest run of digits of the radix at the start of [s]: the value
    it adds to [acc], how many digits it has, and what follows it. *)
Fixpoint readDigits (radix : Z) (s : string) (acc : Z) (count : nat)
  : Z * nat * string :=
  match s with
  | EmptyString => (acc, count, s)
  | String c rest =>
      match digitValue c with
      | Some v =>
          if (v <? radix)%Z
          then readDigits radix rest (radix * acc + v)%Z (S count)
          else (acc, count, s)
      | None => (acc, count, s)
      end
  end.

(** The exponent part: nothing, or [e] or [E], a sign if any, and digits to
    the end. *)
Definition readExponent (s : string) : option Z :=
  match s with
  | EmptyString => Some 0%Z
  | String c rest =>
      if oneOf "eE" c
      then
        let (negative, body) :=
          match rest with
          | String "-" r => (true, r)
          | String "+" r => (false, r)
          | _ => (false, rest)
          end in
        match readDigits 10 body 0 0 with
        | (_, O, _) => None
        | (e, _, EmptyString) => Some (if negative then - e else e)%Z
        | _ => None
        end
      else None
  end.

Definition scale10 (m k : Z) : Q :=
  if (0 <=? k)%Z then (m * 10 ^ k)%Z # 1 else m # Z.to_pos (10 ^ (- k)).

(** An unsigned decimal literal: digits with a fraction if any, or a
    fraction alone, and an exponent if any. *)
Definition readDecimal (s : string) : option Q :=
  match readDigits 10 s 0 0 with
  | (whole, nWhole, afterWhole) =>
      let '(mantissa, nFraction, afterFraction) :=
        match afterWhole with
        | String "." r => readDigits 10 r whole 0
        | _ => (whole, O, afterWhole)
        end in
      match (nWhole + nFraction)%nat with
      | O => None
      | _ =>
          match readExponent afterFraction with
          | Some e => Some (scale10 mantissa (e - Z.of_nat nFraction))
          | None => None
          end
      end
  end.

Definition readUnsigned (s : string) : option number :=
  if String.eqb s "Infinity" then Some PosInfinity
  else match readDecimal s with
       | Some q => Some (roundToDouble q)
       | None => None
       end.

Definition negate (n : number) : number :=
  match n with
  | NaN => NaN
  | NegInfinity => PosInfinity
  | PosInfinity => NegInfinity
  | Finite q => Finite (Qred (- q))
  end.

(** A literal in another radix: two code units of prefix, then digits to
    the end. *)
Definition readRadix (radix : Z) (body : string) : option number :=
  match readDigits radix body 0 0 with
  | (_, O, _) => None
  | (v, _, EmptyString) => Some (roundToDouble (v # 1))
  | _ => None
  end.

(** [StringToNumber]: white space is trimmed; the empty text is 0; then a
    literal in radix 16, 8 or 2, or a decimal literal with a sign if any;
    anything else is NaN. *)
Definition readNumeral (s : string) : number :=
  let text := JsString.trim s in
  let result :=
    match text with
    | EmptyString => Some (Finite (0 # 1))
    | String "0" (String x body) =>
        if oneOf "xX" x then readRadix 16 body
        else if oneOf "oO" x then readRadix 8 body
        else if oneOf "bB" x then readRadix 2 body
        else readUnsigned text
    | String "-" body =>
        match readUnsigned body with
        | Some n => Some (negate n)
        | None => None
        end
    | String "+" body => readUnsigned body
    | _ => readUnsigned text
    end in
  match result with
  | Some n => n
  | None => NaN
  end.

(** *** Printing a double *)

Fixpoint printDigits (fuel : nat) (n : Z) (acc : string) : string :=
  match fuel with
  | O => acc
  | S fuel' =>
      let acc' := String (ascii_of_nat (48 + Z.to_nat (n mod 10))) acc in
      if (n <? 10)%Z then acc' else printDigits fuel' (n / 10)%Z acc'
  end.

(** The decimal digits of a natural number. *)
Definition decimal (n : Z) : string :=
  printDigits (S (Z.to_nat (Z.log2 n))) n EmptyString.

Fixpoint zeros (n : nat) : string :=
  match n with
  | O => EmptyString
  | S m => String "0" (zeros m)
  end.

Definition floorQ (q : Q) : Z := (Qnum q / Z.pos (Qden q))%Z.

(** [scaleQ q k] is [q] times the [k]-th power of 10. *)
Definition scaleQ (q : Q) (k : Z) : Q :=
  Qred (if (0 <=? k)%Z then q * (10 ^ k # 1) else q * (1 # Z.to_pos (10 ^ (- k))))%Q.

Fixpoint magnitudeFrom (fuel : nat) (q : Q) (n : Z) : Z :=
  match fuel with
  | O => n
  | S fuel' =>
      if (floorQ (scaleQ q (- n)) <? 1)%Z then n
      else magnitudeFrom fuel' q (n + 1)%Z
  end.

(** For a positive [q], the [n] with 10^(n-1) <= q < 10^n. *)
Definition magnitude (q : Q) : Z :=
  let e2 := (Z.log2 (Qnum q) - Z.log2 (Z.pos (Qden q)))%Z in
  magnitudeFrom 8 q ((e2 * 30103) / 100000 - 2)%Z.

Definition roundsTo (v q : Q) : bool :=
  match roundToDouble v with
  | Finite x => Qeq_bool x q
  | _ => false
  end.

(** The fewest digits [s], with their count [k] and the position [n] of
    the decimal point, such that s * 10^(n-k) rounds to [q]; of two such
    [s] the nearer to [q], and of two as near the even one. *)
Fixpoint shortest (fuel : nat) (k : Z) (q : Q) (n : Z) : Z * Z * Z :=
  let scaled := scaleQ q (k - n) in
  let lo := floorQ scaled in
  let hi := (lo + 1)%Z in
  let okLo := roundsTo (scaleQ (lo # 1) (n - k)) q in
  let okHi := roundsTo (scaleQ (hi # 1) (n - k)) q in
  let twice := floorQ (scaleQ (Qred (scaled * (2 # 1) - ((lo + hi)%Z # 1))%Q) 0) in
  let exactTie := Qeq_bool (scaled * (2 # 1))%Q ((lo + hi)%Z # 1) in
  let pick :=
    if okLo && okHi
    then if exactTie then (if Z.even lo then Some lo else Some hi)
         else if (twice <? 0)%Z then Some lo else Some hi
    else if okLo then Some lo
    else if okHi then Some hi
    else None in
  match pick, fuel with
  | Some s, _ =>
      if (s =? 10 ^ k)%Z then ((10 ^ (k - 1))%Z, k, (n + 1)%Z) else (s, k, n)
  | None, S fuel' => shortest fuel' (k + 1)%Z q n
  | None, O => (lo, k, n)
  end.

(** [Number::toString] in radix 10, for a finite value. *)
Definition printPositive (q : Q) : string :=
  let '(s, k, n) := shortest 17 1 q (magnitude q) in
  let digits := decimal s in
  if (k <=? n)%Z && (n <=? 21)%Z
  then (digits ++ zeros (Z.to_nat (n - k)))%string
  else if (0 <? n)%Z && (n <=? 21)%Z
  then (substring 0 (Z.to_nat n) digits ++ "."
          ++ substring (Z.to_nat n) (Z.to_nat (k - n)) digits)%string
  else if (-6 <? n)%Z && (n <=? 0)%Z
  then ("0." ++ zeros (Z.to_nat (- n)) ++ digits)%string
  else
    let e := (n - 1)%Z in
    let exponent :=
      ((if (e <? 0)%Z then "e-" else "e+") ++ decimal (Z.abs e))%string in
    if (k =? 1)%Z then (digits ++ exponent)%string
    else (substring 0 1 digits ++ "."
            ++ substring 1 (Z.to_nat (k - 1)) digits ++ exponent)%string.

Definition printNumeral (q : Q) : string :=
  if (Qnum q =? 0)%Z then "0"
  else if (Qnum q <? 0)%Z then String "-" (printPositive (Qred (- q)))
  else printPositive (Qred q).

(** *** Upper case *)

(** The upper case of one code unit below 256, where the locale has no
    rule of its own: the letters a to z and the small letters of 224 to 254
    (247 is the division sign) move down by 32, and 223 becomes SS. *)
Definition upperUnit (c : ascii) : string :=
  let n := nat_of_ascii c in
  if JsString.isLowerAscii c
     || ((224 <=? n)%nat && (n <=? 254)%nat && negb (n =? 247)%nat)
  then String (ascii_of_nat (n - 32)) EmptyString
  else if (n =? 223)%nat then "SS"
  else String c EmptyString.

Fixpoint upperCase (s : string) : string :=
  match s with
  | EmptyString => EmptyString
  | String c rest => (upperUnit c ++ upperCase rest)%string
  end.

#[export] Instance runtime : Runtime := {|
  isEmail := emailRegex;
  StringToNumber := readNumeral;
  NumberToString := printNumeral;
  toLocaleUpperCase := upperCase
|}.

Definition photo : File.t :=
  {| File.name := "ana.png"; File.size := 2048; File.bytes := "PNG" |}.

Definition react : TechInput.t :=
  {| TechInput.title := "React"; TechInput.knowledge := StringValue "80" |}.

Definition rocq : TechInput.t :=
  {| TechInput.title := "Rocq"; TechInput.knowledge := StringValue "30" |}.

(** Values the schema accepts, with capitals in the e-mail and none in
    the name. *)
Definition filled : FormValues.t :=
  {| FormValues.avatar := Some [photo];
     FormValues.name := "ana maria silva";
     FormValues.email := "Ana.Silva@BOO.com.br";
     FormValues.password := "segredo1";
     FormValues.techs := [react; rocq] |}.

(** What the rendered form holds once every visible input is filled as in
    [filled]: the avatar input is not rendered, so no [FileList]. *)
Definition rendered : FormValues.t :=
  {| FormValues.avatar := None;
     FormValues.name := FormValues.name filled;
     FormValues.email := FormValues.email filled;
     FormValues.password := FormValues.password filled;
     FormValues.techs := FormValues.techs filled |}.

(** [filled] with the name left empty. *)
Definition unnamed : FormValues.t :=
  {| FormValues.avatar := FormValues.avatar filled;
     FormValues.name := EmptyString;
     FormValues.email := FormValues.email filled;
     FormValues.password := FormValues.password filled;
     FormValues.techs := FormValues.techs filled |}.

Definition holding (v : FormValues.t) : AppState :=
  {| output := EmptyString; values := v; errors := [] |}.

(** A bucket that stores what it is sent, and a network that is down. *)
Definition bucket : Remote := fun _ path _ => Normal (UploadData path).
Definition offline : Remote := fun _ _ _ => Abrupt TypeError.

End Example.

(** ** Vocabulary of the statements *)

Section Vocabulary.

Context {rt : Runtime}.

(** A schema accepts an input when its parse returns with the status
    "valid". *)
Definition accepted {Input Output : Type} (schema : ZodType Input Output)
  (at_ : list PathSegment) (input : Input) : Prop :=
  exists value issues, schema at_ input = Normal (OK value, issues).

(** The resolver hands parsed values on. *)
Definition accepts (v : FormValues.t) : bool :=
  match zodResolver v with
  | Normal (Values _) => true
  | _ => false
  end.

(** An entry of [techs] with its knowledge coerced. *)
Definition coerced (tech : TechInput.t) : Tech.t :=
  {| Tech.title := TechInput.title tech;
     Tech.knowledge := Number (TechInput.knowledge tech) |}.

Definition within1to100 (n : number) : bool :=
  JsNumber.le (JsNumber.ofZ 1) n && JsNumber.le n (JsNumber.ofZ 100).

Definition above50 (n : number) : bool :=
  JsNumber.gt n (JsNumber.ofZ 50).

(** An entry the element schema of [techs] accepts. *)
Definition validEntry (tech : TechInput.t) : Prop :=
  TechInput.title tech <> EmptyString
  /\ within1to100 (Number (TechInput.knowledge tech)) = true.

(** A word with its first code unit replaced by the upper case the host
    gives it. *)
Definition capitalized (word : string) : string :=
  match word with
  | EmptyString => EmptyString
  | String c rest => (toLocaleUpperCase (String c EmptyString) ++ rest)%string
  end.

(** A name capitalized word by word. *)
Definition capitalizedName (name : string) : string :=
  JsString.join " "
    (map capitalized (JsString.split " " (JsString.trim name))).

(** What the resolver hands to the submit handler, in terms of the values
    of the form. *)
Definition parsedFrom (v : FormValues.t) (file : File.t)
  : CreateUserFormData.t :=
  {| CreateUserFormData.avatar := Some file;
     CreateUserFormData.name := capitalizedName (FormValues.name v);
     CreateUserFormData.email := JsString.toLowerCase (FormValues.email v);
     CreateUserFormData.password := FormValues.password v;
     CreateUserFormData.techs := map coerced (FormValues.techs v) |}.

(** The conditions under which a field of the form fails validation: an
    empty name, a malformed e-mail, an e-mail that once in lower case (the
    schema lowers it before it looks) does not end in "@boo.com.br", a
    password of fewer than 6 code units, fewer than two techs, an empty
    title, a knowledge outside 1..100, no knowledge above 50. *)
Definition failsValidation (v : FormValues.t) : Prop :=
  FormValues.name v = EmptyString
  \/ isEmail (FormValues.email v) = false
  \/ JsString.endsWith (JsString.toLowerCase (FormValues.email v))
       "@boo.com.br" = false
  \/ String.length (FormValues.password v) < 6
  \/ List.length (FormValues.techs v) < 2
  \/ Exists (fun tech => TechInput.title tech = EmptyString)
       (FormValues.techs v)
  \/ Exists (fun tech =>
               within1to100 (Number (TechInput.knowledge tech)) = false)
       (FormValues.techs v)
  \/ ~ Exists (fun tech => above50 (Number (TechInput.knowledge tech)) = true)
       (FormValues.techs v).

End Vocabulary.

Section Outcomes.

Context {rt : Runtime}.

(** Every submission goes one of four ways. *)
Inductive SubmitOutcome (remote : Remote) (s : AppState) : World -> Prop :=
| submit_thrown (e : JsError) :
    zodResolver (values s) = Abrupt e ->
    SubmitOutcome remote s (start s)
| submit_rejected (found : list ZodIssue) :
    zodResolver (values s) = Normal (Errors found) ->
    SubmitOutcome remote s {| state := setErrors found s; trace := [] |}
| submit_upload_failed (file : File.t) (rest : FileList) (e : JsError) :
    FormValues.avatar (values s) = Some (file :: rest) ->
    zodResolver (values s) = Normal (Values (parsedFrom (values s) file)) ->
    remote "forms-react" (File.name file) file = Abrupt e ->
    SubmitOutcome remote s
      {| state := setErrors [] s;
         trace := [UploadCalled "forms-react" (File.name file) file;
                   UploadSettled (Abrupt e)] |}
| submit_echoed (file : File.t) (rest : FileList) (response : UploadResponse) :
    FormValues.avatar (values s) = Some (file :: rest) ->
    zodResolver (values s) = Normal (Values (parsedFrom (values s) file)) ->
    remote "forms-react" (File.name file) file = Normal response ->
    let text := JSON.stringify (JSON.ofData (parsedFrom (values s) file)) 2 in
    SubmitOutcome remote s
      {| state := setOutput text (setErrors [] s);
         trace := [UploadCalled "forms-react" (File.name file) file;
                   UploadSettled (Normal response);
                   OutputSet text] |}.

End Outcomes.




(** ** Vocabulary of the further properties *)

Section Further.

Context {rt : Runtime}.

(** The values on which a callback of the schema throws: an avatar list
    with no file in it, or a nonempty name with an empty word. *)
Definition throwsOn (v : FormValues.t) : Prop :=
  FormValues.avatar v = Some []
  \/ (FormValues.name v <> EmptyString
      /\ In EmptyString
           (JsString.split " " (JsString.trim (FormValues.name v)))).

(** The values every field of which passes its checks. *)
Definition acceptable (v : FormValues.t) : Prop :=
  (exists file rest,
      FormValues.avatar v = Some (file :: rest)
      /\ (File.size file <= 5 * 1024 * 1024)%Z)
  /\ FormValues.name v <> EmptyString
  /\ ~ In EmptyString
         (JsString.split " " (JsString.trim (FormValues.name v)))
  /\ isEmail (FormValues.email v) = true
  /\ JsString.endsWith (JsString.toLowerCase (FormValues.email v))
       "@boo.com.br" = true
  /\ (6 <= String.length (FormValues.password v))%nat
  /\ 2 <= List.length (FormValues.techs v)
  /\ Forall validEntry (FormValues.techs v)
  /\ Exists (fun tech => above50 (Number (TechInput.knowledge tech)) = true)
       (FormValues.techs v).

(** An issue with a message of the source. *)
Definition issue (c : ZodIssueCode) (at_ : list PathSegment) (text : string)
  : ZodIssue :=
  {| code := c; path := at_; message := Some text |}.

(** The issues of the e-mail, check by check. *)
Definition emailIssues (at_ : list PathSegment) (input : string)
  : list ZodIssue :=
  (match input with
   | EmptyString => [issue too_small at_ "O e-mail é obrigatório"]
   | _ => []
   end)
  ++ (if isEmail input then []
      else [issue invalid_string at_ "Formato de e-mail inválido"])
  ++ (if JsString.endsWith (JsString.toLowerCase input) "@boo.com.br"
      then []
      else [issue custom at_ "O e-mail precisa ser da boo"]).

(** The code units [QuoteJSONString] copies as they are. *)
Definition unescaped (c : ascii) : bool :=
  let n := nat_of_ascii c in
  (32 <=? n)%nat && negb (n =? 34)%nat && negb (n =? 92)%nat.

(** [Contains part s]: [part] occurs in [s]. *)
Definition Contains (part s : string) : Prop :=
  exists pre post, s = (pre ++ part ++ post)%string.

End Further.

(** * Properties *)

(** ** Numbers and strings *)

Lemma lt_not_le (a b : number) :
  JsNumber.isNaN a = false -> JsNumber.isNaN b = false ->
  JsNumber.lt a b = negb (JsNumber.le b a).
Proof.
  destruct a as [| |x|], b as [| |y|]; simpl; try discriminate; try reflexivity.
  intros _ _. unfold JsNumber.Qltb, Qle_bool. apply Z.ltb_antisym.
Qed.

Lemma lowerChar_idempotent (c : ascii) :
  JsString.lowerChar (JsString.lowerChar c) = JsString.lowerChar c.
Proof.
  destruct c as [[] [] [] [] [] [] [] []]; reflexivity.
Qed.

Lemma lowerChar_not_upper (c : ascii) :
  JsString.isUpperAscii (JsString.lowerChar c) = false.
Proof.
  destruct c as [[] [] [] [] [] [] [] []]; reflexivity.
Qed.

Lemma toLowerCase_idempotent (s : string) :
  JsString.toLowerCase (JsString.toLowerCase s) = JsString.toLowerCase s.
Proof.
  induction s as [|c rest IH]; simpl.
  - reflexivity.
  - now rewrite lowerChar_idempotent, IH.
Qed.

Lemma toLowerCase_no_upper (s : string) :
  Forall (fun c => JsString.isUpperAscii c = false)
    (list_ascii_of_string (JsString.toLowerCase s)).
Proof.
  induction s as [|c rest IH]; simpl; constructor.
  - apply lowerChar_not_upper.
  - exact IH.
Qed.

(** ** The combinators of the schema library *)

Section Combinators.

Context {Input Output : Type}.

Lemma mergeObject_OK {A B : Type} (object : ParseReturn (A -> B))
  (r : ParseReturn A) (v : B) :
  mergeObject object r = OK v <->
  exists make a, object = OK make /\ r = OK a /\ v = make a.
Proof.
  split.
  - destruct object as [make|make| |], r as [a|a| |]; simpl;
      try discriminate.
    intros [= <-]. now exists make, a.
  - intros (make & a & -> & -> & ->). reflexivity.
Qed.

Lemma refine_OK (check : Output -> Completion bool) (message : string)
  (schema : ZodType Input Output) at_ input v issues :
  ZodEffects.refine check message schema at_ input = Normal (OK v, issues) <->
  schema at_ input = Normal (OK v, issues) /\ check v = Normal true.
Proof.
  unfold ZodEffects.refine.
  destruct (schema at_ input) as [[inner found]|e]; simpl.
  2: { split; [discriminate | intros [[=] _]]. }
  destruct inner as [value|value| |]; simpl.
  - destruct (check value) as [[|]|e] eqn:Hcheck; simpl.
    + split.
      * intros [= <- <-]. now split.
      * intros [[= <- <-] _]. reflexivity.
    + split; [discriminate|]. intros [[= <- <-] Hv]. congruence.
    + split; [discriminate|]. intros [[= <- <-] Hv]. congruence.
  - destruct (check value) as [[|]|e]; simpl;
      (split; [discriminate | intros [[=] _]]).
  - split; [discriminate | intros [[=] _]].
  - split; [discriminate | intros [[=] _]].
Qed.

Lemma transform_OK {Base : Type} (f : Base -> Completion Output)
  (schema : ZodType Input Base) at_ input v issues :
  ZodEffects.transform f schema at_ input = Normal (OK v, issues) <->
  exists base, schema at_ input = Normal (OK base, issues) /\ f base = Normal v.
Proof.
  unfold ZodEffects.transform.
  destruct (schema at_ input) as [[inner found]|e]; simpl.
  2: { split; [discriminate | intros (b & [=] & _)]. }
  destruct inner as [value|value| |]; simpl;
    try (split; [discriminate | intros (b & [=] & _)]).
  destruct (f value) as [result|e] eqn:Hf; simpl.
  - split.
    + intros [= <- <-]. now exists value.
    + intros (b & [= <- <-] & Hb). congruence.
  - split; [discriminate|]. intros (b & [= <- <-] & Hb). congruence.
Qed.

Lemma field_OK {A B : Type} (key : string) (get : Input -> A)
  (schema : ZodType A B) (object : ZodType Input (B -> Output))
  at_ input v issues :
  ZodObject.field key get schema object at_ input = Normal (OK v, issues) ->
  exists make b found more,
    object at_ input = Normal (OK make, found)
    /\ schema (at_ ++ [Key key]) (get input) = Normal (OK b, more)
    /\ v = make b.
Proof.
  unfold ZodObject.field.
  destruct (object at_ input) as [[sofar found]|e]; simpl; [|discriminate].
  destruct (schema (at_ ++ [Key key]) (get input)) as [[r more]|e]; simpl;
    [|discriminate].
  intros [= Hmerge _]. apply mergeObject_OK in Hmerge.
  destruct Hmerge as (make & b & -> & -> & ->).
  now exists make, b, found, more.
Qed.

(** A key that throws makes the object throw, whatever the keys before it
    returned. *)
Lemma field_throws {A B : Type} (key : string) (get : Input -> A)
  (schema : ZodType A B) (object : ZodType Input (B -> Output))
  at_ input e :
  schema (at_ ++ [Key key]) (get input) = Abrupt e ->
  (exists r, object at_ input = Normal r) ->
  ZodObject.field key get schema object at_ input = Abrupt e.
Proof.
  intros Hschema [[sofar found] Hobject]. unfold ZodObject.field.
  rewrite Hobject. simpl. rewrite Hschema. reflexivity.
Qed.

End Combinators.

(** ** The fields of [createUserFormSchema] *)

Section Fields.

Context {rt : Runtime}.

Lemma avatarSchema_OK at_ input v issues :
  avatarSchema at_ input = Normal (OK v, issues) ->
  exists file rest,
    input = Some (file :: rest) /\ v = Some file
    /\ (File.size file <= 5 * 1024 * 1024)%Z.
Proof.
  unfold avatarSchema. intros H.
  apply refine_OK in H. destruct H as [H Hsize].
  apply transform_OK in H. destruct H as (list & Hlist & Hitem).
  unfold ZodEffects.instanceof_FileList in Hlist.
  destruct input as [files|]; [|discriminate].
  injection Hlist as <- _. injection Hitem as <-.
  destruct files as [|file rest]; simpl in Hsize; [discriminate|].
  injection Hsize as Hsize. apply Z.leb_le in Hsize.
  now exists file, rest.
Qed.

(** The base of the avatar's [transform] is valid or aborted, never dirty:
    the [refine] that follows never meets a value the transform declined. *)
Lemma avatar_base_never_dirty at_ input :
  exists r issues,
    ZodEffects.instanceof_FileList at_ input = Normal (r, issues)
    /\ (isValid r = true \/ r = INVALID).
Proof.
  destruct input as [files|]; simpl; eexists _, _; split;
    try reflexivity; auto.
Qed.

Lemma nameSchema_OK at_ input v issues :
  nameSchema at_ input = Normal (OK v, issues) ->
  input <> EmptyString /\ nameTransform input = Normal v.
Proof.
  unfold nameSchema. intros H.
  apply transform_OK in H. destruct H as (base & Hbase & Hf).
  unfold ZodString._parse, ZodString.nonempty, ZodString.create in Hbase.
  simpl in Hbase.
  destruct input as [|c rest]; simpl in Hbase; [discriminate|].
  injection Hbase as <- _. split; [discriminate | exact Hf].
Qed.

Lemma emailSchema_OK at_ input v issues :
  emailSchema at_ input = Normal (OK v, issues) ->
  input <> EmptyString /\ isEmail input = true
  /\ v = JsString.toLowerCase input
  /\ JsString.endsWith v "@boo.com.br" = true.
Proof.
  unfold emailSchema. intros H.
  apply refine_OK in H. destruct H as [H Hdomain].
  unfold ZodString._parse, ZodString.toLowerCase, ZodString.email,
    ZodString.nonempty, ZodString.create in H.
  simpl in H.
  destruct (isEmail input) eqn:Hformat;
    destruct input as [|c rest]; simpl in H; try discriminate.
  injection H as <- _.
  unfold emailDomainCheck in Hdomain. injection Hdomain as Hdomain.
  repeat split; try assumption; discriminate.
Qed.

Lemma passwordSchema_OK at_ input v issues :
  passwordSchema at_ input = Normal (OK v, issues) ->
  (6 <= String.length input)%nat /\ v = input.
Proof.
  unfold passwordSchema, ZodString._parse, ZodString.min, ZodString.create.
  simpl.
  destruct (String.length input <? 6)%nat eqn:Hshort; simpl; [discriminate|].
  intros [= <- _]. apply Nat.ltb_ge in Hshort. now split.
Qed.

(** *** The entries of [techs] *)

Lemma titleSchema_returns at_ input :
  exists r issues,
    titleSchema at_ input = Normal (r, issues)
    /\ (r = OK input \/ r = DIRTY input)
    /\ (r = OK input <-> input <> EmptyString).
Proof.
  unfold titleSchema, ZodString._parse, ZodString.nonempty, ZodString.create.
  destruct input as [|c rest]; simpl; eexists _, _;
    (split; [reflexivity|]); split; auto; split;
    congruence || discriminate.
Qed.

Lemma knowledgeSchema_returns at_ input :
  exists r issues,
    knowledgeSchema at_ input = Normal (r, issues)
    /\ (r = OK (Number input) \/ r = DIRTY (Number input) \/ r = INVALID)
    /\ (r = OK (Number input) <-> within1to100 (Number input) = true).
Proof.
  unfold knowledgeSchema, ZodNumber._parse, ZodNumber.max, ZodNumber.min,
    ZodNumber.create_coerce, within1to100.
  destruct (JsNumber.isNaN (Number input)) eqn:Hnan.
  - eexists _, _. split; [reflexivity|]. split; [auto|].
    destruct (Number input); try discriminate. simpl.
    split; discriminate.
  - cbn [app ZodNumber.runChecks]. unfold JsNumber.gt.
    rewrite !lt_not_le by (assumption || reflexivity).
    destruct (JsNumber.le (JsNumber.ofZ 1) (Number input));
      destruct (JsNumber.le (Number input) (JsNumber.ofZ 100));
      cbn [negb dirty andb]; eexists _, _;
      (split; [reflexivity|]); split; auto; split;
      congruence || discriminate.
Qed.

Lemma techSchema_returns at_ tech :
  exists r issues,
    techSchema at_ tech = Normal (r, issues)
    /\ (r = OK (coerced tech) \/ r = DIRTY (coerced tech) \/ r = INVALID)
    /\ (r = OK (coerced tech) <->
        TechInput.title tech <> EmptyString
        /\ within1to100 (Number (TechInput.knowledge tech)) = true).
Proof.
  unfold techSchema, ZodObject.field, ZodObject.create.
  destruct (titleSchema_returns (at_ ++ [Key "title"]) (TechInput.title tech))
    as (rt' & it & -> & Ht & Ht').
  destruct (knowledgeSchema_returns (at_ ++ [Key "knowledge"])
              (TechInput.knowledge tech))
    as (rk & ik & -> & Hk & Hk').
  cbn [bindC]. eexists _, _. split; [reflexivity|].
  unfold coerced.
  destruct Ht as [-> | ->], Hk as [-> | [-> | ->]]; cbn [mergeObject];
    (split; [auto|]); rewrite <- Ht', <- Hk';
    (split; [intros; split; (reflexivity || discriminate)
            | intros [? ?]; (reflexivity || discriminate)]).
Qed.

Lemma parseItems_techs at_ index items :
  exists results issues,
    ZodArray.parseItems techSchema at_ index items = Normal (results, issues)
    /\ (mergeArray results = OK (map coerced items)
        \/ mergeArray results = DIRTY (map coerced items)
        \/ mergeArray results = INVALID)
    /\ (mergeArray results = OK (map coerced items) <->
        Forall validEntry items).
Proof.
  revert index. induction items as [|tech rest IH]; intros index.
  - exists [], []. cbn. repeat split; auto.
  - cbn [ZodArray.parseItems].
    destruct (techSchema_returns (at_ ++ [Index index]) tech)
      as (r & found & -> & Hr & Hr').
    destruct (IH (S index)) as (rs & more & -> & Hrs & Hrs').
    cbn [bindC]. eexists _, _. split; [reflexivity|].
    fold (validEntry tech) in Hr'.
    cbn [mergeArray map].
    destruct Hr as [-> | [-> | ->]], Hrs as [Hm | [Hm | Hm]];
      rewrite Hm in *; cbn [mergeObject]; (split; [auto|]);
      (split;
       [ intros [=]; (constructor; [apply Hr'|apply Hrs']; congruence)
       | intros HF; inversion HF as [|? ? Hhead Htail]; subst;
         apply Hr' in Hhead; apply Hrs' in Htail; congruence ]).
Qed.

Lemma some_above50 (items : list TechInput.t) :
  techsCheck (map coerced items) = Normal true <->
  Exists (fun tech => above50 (Number (TechInput.knowledge tech)) = true) items.
Proof.
  unfold techsCheck. rewrite Exists_exists. split.
  - intros [= H]. apply existsb_exists in H.
    destruct H as (parsed & Hin & Hgt). apply in_map_iff in Hin.
    destruct Hin as (tech & <- & Hin). now exists tech.
  - intros (tech & Hin & Hgt). f_equal. apply existsb_exists.
    exists (coerced tech). split; [now apply in_map | exact Hgt].
Qed.

Lemma techsSchema_OK at_ items v issues :
  techsSchema at_ items = Normal (OK v, issues) ->
  v = map coerced items
  /\ 2 <= List.length items
  /\ Forall validEntry items
  /\ Exists (fun tech => above50 (Number (TechInput.knowledge tech)) = true)
       items.
Proof.
  unfold techsSchema. intros H. apply refine_OK in H. destruct H as [H Hsome].
  unfold ZodArray._parse, ZodArray.tooShort, ZodArray.min, ZodArray.create in H.
  cbn [ZodArray.element ZodArray.minLength] in H.
  destruct (parseItems_techs at_ 0 items) as (rs & found & Hrs & Hm & Hvalid).
  rewrite Hrs in H. cbn [bindC] in H.
  destruct (List.length items <? 2)%nat eqn:Hlen.
  - exfalso. injection H as H _.
    destruct Hm as [Hm | [Hm | Hm]]; rewrite Hm in H; discriminate.
  - injection H as H _. apply Nat.ltb_ge in Hlen.
    assert (v = map coerced items) as ->.
    { destruct Hm as [Hm | [Hm | Hm]]; rewrite Hm in H; congruence. }
    repeat split; [exact Hlen | now apply Hvalid | now apply some_above50].
Qed.

Lemma techsSchema_accepts at_ items :
  2 <= List.length items ->
  Forall validEntry items ->
  Exists (fun tech => above50 (Number (TechInput.knowledge tech)) = true)
    items ->
  exists issues, techsSchema at_ items = Normal (OK (map coerced items), issues).
Proof.
  intros Hlen Hvalid Hsome.
  destruct (parseItems_techs at_ 0 items) as (rs & found & Hrs & _ & Hm).
  apply Hm in Hvalid. exists found.
  unfold techsSchema. apply refine_OK. split; [|now apply some_above50].
  unfold ZodArray._parse, ZodArray.tooShort, ZodArray.min, ZodArray.create.
  cbn [ZodArray.element ZodArray.minLength].
  rewrite Hrs. cbn [bindC].
  apply Nat.ltb_ge in Hlen. rewrite Hlen, Hvalid. reflexivity.
Qed.

End Fields.

(** ** The name transform *)

Section NameTransform.

Context {rt : Runtime}.

Lemma capitalizeWord_cases (word : string) :
  (word = EmptyString /\ capitalizeWord word = Abrupt TypeError)
  \/ (word <> EmptyString /\ capitalizeWord word = Normal (capitalized word)).
Proof.
  destruct word as [|c rest]; [left | right]; split;
    reflexivity || discriminate.
Qed.

Lemma mapC_capitalizeWord (words : list string) :
  (In EmptyString words /\ mapC capitalizeWord words = Abrupt TypeError)
  \/ (~ In EmptyString words
      /\ mapC capitalizeWord words = Normal (map capitalized words)).
Proof.
  induction words as [|word rest IH].
  - right. split; [intros [] | reflexivity].
  - cbn [mapC map].
    destruct (capitalizeWord_cases word) as [[-> Hw] | [Hne Hw]]; rewrite Hw.
    + left. split; [now left | reflexivity].
    + cbn [bindC]. destruct IH as [[Hin Hrest] | [Hnot Hrest]]; rewrite Hrest.
      * left. split; [now right | reflexivity].
      * right. split; [|reflexivity].
        intros [Heq | Hin]; [now apply Hne | now apply Hnot].
Qed.

Lemma nameTransform_cases (name : string) :
  let words := JsString.split " " (JsString.trim name) in
  (In EmptyString words /\ nameTransform name = Abrupt TypeError)
  \/ (~ In EmptyString words
      /\ nameTransform name = Normal (capitalizedName name)).
Proof.
  intros words. unfold nameTransform, capitalizedName. fold words.
  destruct (mapC_capitalizeWord words) as [[Hin ->] | [Hnot ->]];
    [left | right]; split; auto.
Qed.

End NameTransform.

(** ** The schema as a whole *)

Section Whole.

Context {rt : Runtime}.

Lemma createUserFormSchema_OK at_ v data issues :
  createUserFormSchema at_ v = Normal (OK data, issues) ->
  exists file rest,
    FormValues.avatar v = Some (file :: rest)
    /\ data = parsedFrom v file
    /\ (File.size file <= 5 * 1024 * 1024)%Z
    /\ FormValues.name v <> EmptyString
    /\ ~ In EmptyString
         (JsString.split " " (JsString.trim (FormValues.name v)))
    /\ isEmail (FormValues.email v) = true
    /\ JsString.endsWith (JsString.toLowerCase (FormValues.email v))
         "@boo.com.br" = true
    /\ (6 <= String.length (FormValues.password v))%nat
    /\ 2 <= List.length (FormValues.techs v)
    /\ Forall validEntry (FormValues.techs v)
    /\ Exists (fun tech => above50 (Number (TechInput.knowledge tech)) = true)
         (FormValues.techs v).
Proof.
  unfold createUserFormSchema. intros H.
  apply field_OK in H. destruct H as (m5 & t & i5 & j5 & H & Ht & ->).
  apply field_OK in H. destruct H as (m4 & p & i4 & j4 & H & Hp & ->).
  apply field_OK in H. destruct H as (m3 & e & i3 & j3 & H & He & ->).
  apply field_OK in H. destruct H as (m2 & n & i2 & j2 & H & Hn & ->).
  apply field_OK in H. destruct H as (m1 & a & i1 & j1 & H & Ha & ->).
  unfold ZodObject.create in H. injection H as <- _.
  apply avatarSchema_OK in Ha. destruct Ha as (file & rest & Hav & -> & Hsize).
  apply nameSchema_OK in Hn. destruct Hn as [Hname Hn].
  apply emailSchema_OK in He. destruct He as (_ & Hformat & -> & Hdomain).
  apply passwordSchema_OK in Hp. destruct Hp as [Hlen ->].
  apply techsSchema_OK in Ht. destruct Ht as (-> & Htechs).
  destruct (nameTransform_cases (FormValues.name v)) as [[_ Hthrow] | [Hwords Hok]].
  { rewrite Hthrow in Hn. discriminate. }
  rewrite Hok in Hn. injection Hn as <-.
  exists file, rest. unfold parsedFrom. repeat split; try tauto; assumption.
Qed.

Lemma zodResolver_Values v data :
  zodResolver v = Normal (Values data) ->
  exists issues, createUserFormSchema [] v = Normal (OK data, issues).
Proof.
  unfold zodResolver, parseAsync.
  destruct (createUserFormSchema [] v) as [[r issues]|e]; cbn [bindC];
    [|discriminate].
  destruct r as [value|value| |]; destruct issues as [|issue issues];
    cbn [bindC]; try discriminate; intros [= <-]; eexists; reflexivity.
Qed.

Lemma accepts_true v :
  accepts v = true ->
  exists file rest,
    FormValues.avatar v = Some (file :: rest)
    /\ zodResolver v = Normal (Values (parsedFrom v file)).
Proof.
  unfold accepts. destruct (zodResolver v) as [[data|errs]|e] eqn:Hres;
    try discriminate.
  intros _. destruct (zodResolver_Values _ _ Hres) as [issues Hschema].
  apply createUserFormSchema_OK in Hschema.
  destruct Hschema as (file & rest & Hav & -> & _).
  now exists file, rest.
Qed.

End Whole.

(** ** Running the handlers *)

Lemma run_bindP (remote : Remote) {A B : Type} (p : Prog A)
  (k : A -> Prog B) (w : World) :
  run remote (bindP p k) w =
  match run remote p w with
  | (Normal a, w') => run remote (k a) w'
  | (Abrupt e, w') => (Abrupt e, w')
  end.
Proof.
  revert w. induction p as [a|e|X effect k' IH]; intros w; cbn [bindP run].
  - reflexivity.
  - reflexivity.
  - destruct (doEffect remote effect w) as [[x|e] w']; [apply IH | reflexivity].
Qed.

Section Handlers.

Context {rt : Runtime}.

(** The three ways [createUser] runs on data whose avatar is a file. *)
Lemma run_createUser (remote : Remote) (data : CreateUserFormData.t)
  (file : File.t) (w : World) :
  CreateUserFormData.avatar data = Some file ->
  run remote (createUser data) w =
  match remote "forms-react" (File.name file) file with
  | Normal response =>
      (Normal tt,
       {| state := setOutput (JSON.stringify (JSON.ofData data) 2) (state w);
          trace := (trace w
                      ++ [UploadCalled "forms-react" (File.name file) file;
                          UploadSettled (Normal response)])
                     ++ [OutputSet (JSON.stringify (JSON.ofData data) 2)] |})
  | Abrupt e =>
      (Abrupt e,
       {| state := state w;
          trace := trace w
                     ++ [UploadCalled "forms-react" (File.name file) file;
                         UploadSettled (Abrupt e)] |})
  end.
Proof.
  intros Hfile. unfold createUser. rewrite Hfile.
  cbn [callOn liftC bindP perform run doEffect].
  destruct (remote "forms-react" (File.name file) file) as [response|e];
    reflexivity.
Qed.

(** [handleSubmit] calls its handler on the resolver's values and in no
    other case. *)
Lemma run_handleSubmit (remote : Remote)
  (onValid : CreateUserFormData.t -> Prog unit) (s : AppState) :
  run remote (handleSubmit onValid) (start s) =
  match zodResolver (values s) with
  | Normal (Values data) =>
      run remote (onValid data) {| state := setErrors [] s; trace := [] |}
  | Normal (Errors found) =>
      (Normal tt, {| state := setErrors found s; trace := [] |})
  | Abrupt e => (Abrupt e, start s)
  end.
Proof.
  unfold handleSubmit. cbn [perform bindP run doEffect start state].
  rewrite run_bindP.
  destruct (zodResolver (values s)) as [[data|found]|e]; cbn [liftC run].
  - reflexivity.
  - reflexivity.
  - reflexivity.
Qed.

Lemma submit_outcome (remote : Remote) (s : AppState) :
  SubmitOutcome remote s (submit remote s).
Proof.
  unfold submit, onSubmit. rewrite run_handleSubmit.
  destruct (zodResolver (values s)) as [[data|found]|e] eqn:Hres.
  - assert (accepts (values s) = true) as Hacc
      by (unfold accepts; now rewrite Hres).
    apply accepts_true in Hacc. destruct Hacc as (file & rest & Hav & Hres').
    rewrite Hres in Hres'. injection Hres' as ->.
    rewrite (run_createUser remote _ file) by reflexivity.
    destruct (remote "forms-react" (File.name file) file) as [response|e]
      eqn:Hremote; cbn [snd state trace app].
    + eapply submit_echoed; eassumption.
    + eapply submit_upload_failed; eassumption.
  - cbn [snd]. eapply submit_rejected; eassumption.
  - cbn [snd]. eapply submit_thrown; eassumption.
Qed.

End Handlers.

(** ** Validation before the handler *)

Section Guard.

Context {rt : Runtime}.

Lemma failsValidation_rejected (v : FormValues.t) :
  failsValidation v -> accepts v = false.
Proof.
  intros Hfails. destruct (accepts v) eqn:Hacc; [exfalso | reflexivity].
  apply accepts_true in Hacc. destruct Hacc as (file & rest & _ & Hres).
  apply zodResolver_Values in Hres. destruct Hres as [issues Hschema].
  apply createUserFormSchema_OK in Hschema.
  destruct Hschema as (file' & rest' & _ & _ & _ & Hname & _ & Hformat
                       & Hdomain & Hpassword & Hlen & Hvalid & Hsome).
  rewrite Forall_forall in Hvalid.
  destruct Hfails as [H | [H | [H | [H | [H | [H | [H | H]]]]]]].
  - contradiction.
  - congruence.
  - congruence.
  - lia.
  - lia.
  - apply Exists_exists in H. destruct H as (tech & Hin & Htitle).
    now destruct (Hvalid tech Hin).
  - apply Exists_exists in H. destruct H as (tech & Hin & Hrange).
    destruct (Hvalid tech Hin). congruence.
  - contradiction.
Qed.

Lemma rejected_handler_not_run (remote : Remote) (s : AppState)
  (onValid : CreateUserFormData.t -> Prog unit) :
  accepts (values s) = false ->
  let w := snd (run remote (handleSubmit onValid) (start s)) in
  trace w = [] /\ output (state w) = output s /\ values (state w) = values s.
Proof.
  unfold accepts. intros Hacc. rewrite run_handleSubmit.
  destruct (zodResolver (values s)) as [[data|found]|e];
    [discriminate | |]; cbn; auto.
Qed.

(** Without a [FileList] for the avatar (the page renders no input that
    could supply one) the resolver accepts nothing. *)
Lemma no_avatar_rejected (v : FormValues.t) :
  FormValues.avatar v = None -> accepts v = false.
Proof.
  intros Hnone. destruct (accepts v) eqn:Hacc; [|reflexivity].
  apply accepts_true in Hacc. destruct Hacc as (file & rest & Hav & _).
  congruence.
Qed.

End Guard.

(** * The claims *)

Section Claims.

Context {rt : Runtime}.

(** C1, as amended.  On every form submission whose values the schema
    accepts, [createUser] calls the storage upload, once, on the bucket
    "forms-react", with the name of the parsed avatar and the file itself;
    the parsed avatar is the first file of the submitted [FileList]. *)
Theorem accepted_submission_uploads_avatar (remote : Remote) (s : AppState)
  (data : CreateUserFormData.t) :
  zodResolver (values s) = Normal (Values data) ->
  exists file rest,
    FormValues.avatar (values s) = Some (file :: rest)
    /\ CreateUserFormData.avatar data = Some file
    /\ uploads (trace (submit remote s))
       = [("forms-react", File.name file, file)].
Proof.
  intros Hres.
  destruct (submit_outcome remote s) as [e He | found Hf
    | file rest e Hav Hvalues Hremote | file rest response Hav Hvalues Hremote];
    rewrite Hres in *; try discriminate;
    injection Hvalues as ->; exists file, rest; repeat split; assumption.
Qed.

(** C2.  When any field fails validation, no handler is invoked: the
    submission runs as it would with a handler that does nothing, no storage
    upload is performed, and the output on screen is unchanged. *)
Theorem invalid_submission_has_no_effect (remote : Remote) (s : AppState) :
  failsValidation (values s) ->
  (forall onValid,
      run remote (handleSubmit onValid) (start s)
      = run remote (handleSubmit (fun _ => Ret tt)) (start s))
  /\ uploads (trace (submit remote s)) = []
  /\ output (state (submit remote s)) = output s.
Proof.
  intros Hfails. apply failsValidation_rejected in Hfails.
  split.
  - intros onValid. rewrite !run_handleSubmit. unfold accepts in Hfails.
    destruct (zodResolver (values s)) as [[data|found]|e];
      [discriminate | reflexivity | reflexivity].
  - destruct (rejected_handler_not_run remote s createUser Hfails)
      as (Htrace & Houtput & _).
    unfold submit, onSubmit. rewrite Htrace. now split.
Qed.

(** C3.  Whenever a submission sets the output, the storage upload was
    called and its promise fulfilled before that, and nothing happens
    after. *)
Theorem output_set_after_upload_settles (remote : Remote) (s : AppState)
  (before after : list Event) (text : string) :
  trace (submit remote s) = before ++ OutputSet text :: after ->
  exists path body response,
    before = [UploadCalled "forms-react" path body;
              UploadSettled (Normal response)]
    /\ after = [].
Proof.
  intros Htrace.
  destruct (submit_outcome remote s) as [e He | found Hf
    | file rest e Hav Hvalues Hremote | file rest response Hav Hvalues Hremote];
    cbn [trace start] in Htrace.
  - now destruct before.
  - now destruct before.
  - destruct before as [|e1 [|e2 [|e3 before]]]; discriminate.
  - destruct before as [|e1 [|e2 [|e3 before]]]; try discriminate.
    + injection Htrace as <- <- _ <-.
      now exists (File.name file), file, response.
    + injection Htrace as _ _ _ Htrace. now destruct before.
Qed.


(** C5.  A submission the schema accepts makes exactly one storage call,
    and any other submission makes none: never more than one. *)
Theorem one_remote_call_per_accepted_submission (remote : Remote)
  (s : AppState) :
  List.length (uploads (trace (submit remote s)))
  = if accepts (values s) then 1 else 0.
Proof.
  unfold accepts.
  destruct (submit_outcome remote s) as [e He | found Hf
    | file rest e Hav Hvalues Hremote | file rest response Hav Hvalues Hremote].
  - now rewrite He.
  - now rewrite Hf.
  - now rewrite Hvalues.
  - now rewrite Hvalues.
Qed.


(** C7.  A click on "Adicionar" appends exactly one entry, with the title
    empty and the knowledge 0, at the end of [techs]; the entries that were
    there stay where they were, and the rest of the page is untouched. *)
Theorem adicionar_appends_one_entry (remote : Remote) (s : AppState) :
  let before := FormValues.techs (values s) in
  let after := FormValues.techs (values (state (clickAdicionar remote s))) in
  after = before ++ [{| TechInput.title := EmptyString;
                        TechInput.knowledge := NumberValue (JsNumber.ofZ 0) |}]
  /\ List.length after = S (List.length before)
  /\ (forall i, i < List.length before ->
                nth_error after i = nth_error before i)
  /\ nth_error after (List.length before)
     = Some {| TechInput.title := EmptyString;
               TechInput.knowledge := NumberValue (JsNumber.ofZ 0) |}
  /\ FormValues.avatar (values (state (clickAdicionar remote s)))
     = FormValues.avatar (values s)
  /\ FormValues.name (values (state (clickAdicionar remote s)))
     = FormValues.name (values s)
  /\ FormValues.email (values (state (clickAdicionar remote s)))
     = FormValues.email (values s)
  /\ FormValues.password (values (state (clickAdicionar remote s)))
     = FormValues.password (values s)
  /\ output (state (clickAdicionar remote s)) = output s
  /\ errors (state (clickAdicionar remote s)) = errors s
  /\ trace (clickAdicionar remote s) = [].
Proof.
  intros before after. subst before after.
  unfold clickAdicionar, addNewTech. cbn.
  repeat split.
  - rewrite length_app. cbn. lia.
  - intros i Hi. now apply nth_error_app1.
  - rewrite nth_error_app2 by lia. now rewrite Nat.sub_diag.
Qed.

(** C8.  The schema of [techs] accepts a list if and only if it has at
    least two entries, every title is nonempty, every knowledge, once
    coerced to a number, lies between 1 and 100 inclusive, and some
    knowledge is greater than 50. *)
Theorem techs_accepted_iff (at_ : list PathSegment)
  (techs : list TechInput.t) :
  accepted techsSchema at_ techs <->
  2 <= List.length techs
  /\ Forall (fun tech => TechInput.title tech <> EmptyString) techs
  /\ Forall (fun tech =>
               within1to100 (Number (TechInput.knowledge tech)) = true) techs
  /\ Exists (fun tech => above50 (Number (TechInput.knowledge tech)) = true)
       techs.
Proof.
  unfold accepted. split.
  - intros (v & issues & H). apply techsSchema_OK in H.
    destruct H as (_ & Hlen & Hvalid & Hsome).
    apply Forall_and_inv in Hvalid. destruct Hvalid as [Htitles Hranges].
    now repeat split.
  - intros (Hlen & Htitles & Hranges & Hsome).
    destruct (techsSchema_accepts at_ techs Hlen) as [issues H].
    + now apply Forall_and.
    + exact Hsome.
    + now exists (map coerced techs), issues.
Qed.

(** C9, as amended.  A name that passes the nonempty check and, once
    trimmed and then split on single spaces, has an empty word makes the
    name schema throw a [TypeError]; the resolver then throws it too, so the
    form gets neither parsed values nor an error message. *)
Theorem name_with_empty_word_throws (at_ : list PathSegment) (name : string) :
  name <> EmptyString ->
  In EmptyString (JsString.split " " (JsString.trim name)) ->
  nameSchema at_ name = Abrupt TypeError
  /\ (forall v, FormValues.name v = name -> zodResolver v = Abrupt TypeError).
Proof.
  intros Hne Hword.
  assert (forall path, nameSchema path name = Abrupt TypeError) as Hthrows.
  { intros path.
    unfold nameSchema, ZodEffects.transform, ZodString._parse,
      ZodString.nonempty, ZodString.create.
    destruct name as [|c rest]; [contradiction|]. cbn [app ZodString.runChecks].
    cbn [String.length Nat.ltb Nat.leb bindC].
    destruct (nameTransform_cases (String c rest)) as [[_ ->] | [Hnot _]];
      [reflexivity | contradiction]. }
  split; [apply Hthrows|].
  intros v Hv. unfold zodResolver, parseAsync, createUserFormSchema.
  unfold ZodObject.field at 1 2 3 4. unfold ZodObject.field, ZodObject.create.
  rewrite Hv, Hthrows. cbn [bindC].
  unfold avatarSchema, ZodEffects.refine, ZodEffects.transform,
    ZodEffects.instanceof_FileList.
  destruct (FormValues.avatar v) as [[|file files]|]; cbn; try reflexivity.
  now destruct (File.size file <=? 5242880)%Z.
Qed.

(** C10.  The e-mail of successfully parsed data is the submitted e-mail in
    lower case: it has no upper-case letter, lowering it again changes
    nothing, and it ends with "@boo.com.br". *)
Theorem parsed_email_is_lowercase_boo (v : FormValues.t)
  (data : CreateUserFormData.t) :
  zodResolver v = Normal (Values data) ->
  CreateUserFormData.email data = JsString.toLowerCase (FormValues.email v)
  /\ JsString.toLowerCase (CreateUserFormData.email data)
     = CreateUserFormData.email data
  /\ Forall (fun c => JsString.isUpperAscii c = false)
       (list_ascii_of_string (CreateUserFormData.email data))
  /\ JsString.endsWith (CreateUserFormData.email data) "@boo.com.br" = true.
Proof.
  intros Hres. apply zodResolver_Values in Hres.
  destruct Hres as [issues Hschema].
  apply createUserFormSchema_OK in Hschema.
  destruct Hschema as (file & rest & _ & -> & _ & _ & _ & _ & Hdomain & _).
  cbn [parsedFrom CreateUserFormData.email]. repeat split.
  - apply toLowerCase_idempotent.
  - apply toLowerCase_no_upper.
  - exact Hdomain.
Qed.

End Claims.

(** * The claims on the examples *)

Section Examples.

#[local] Existing Instance Example.runtime.

Import Example.

(** What the string operations give on the inputs the claims speak of. *)
Lemma split_keeps_empty_words :
  JsString.split " " "a  b" = ["a"; ""; "b"]
  /\ JsString.split " " (JsString.trim "   ") = [""]
  /\ JsString.split " " (JsString.trim "  a b ") = ["a"; "b"].
Proof.
  repeat split.
Qed.

Lemma endsWith_is_case_sensitive :
  JsString.endsWith "ana@BOO.com.br" "@boo.com.br" = false
  /\ JsString.endsWith (JsString.toLowerCase "ana@BOO.com.br") "@boo.com.br"
     = true.
Proof.
  split; reflexivity.
Qed.

(** Two techs are needed, one of them above 50. *)
Lemma techs_examples :
  accepted techsSchema [Key "techs"] [react; rocq]
  /\ ~ accepted techsSchema [Key "techs"] [react]
  /\ ~ accepted techsSchema [Key "techs"] [rocq; rocq].
Proof.
  split; [|split].
  - eexists _, _. vm_compute. reflexivity.
  - intros (v & issues & H). vm_compute in H. discriminate.
  - intros (v & issues & H). vm_compute in H. discriminate.
Qed.

(** C1, as stated, fails: a submission that carries an avatar and leaves the
    name empty is rejected with the message of the name, and nothing is
    uploaded. *)
Lemma rejected_submission_uploads_nothing :
  submit bucket (holding unnamed)
  = {| state :=
         {| output := EmptyString;
            values := unnamed;
            errors := [{| code := too_small;
                          path := [Key "name"];
                          message := Some "O nome é obrigatório" |}] |};
       trace := [] |}
  /\ uploads (trace (submit bucket (holding unnamed))) = [].
Proof.
  split; vm_compute; reflexivity.
Qed.

(** The page as it renders, with every visible input filled as the schema
    wants it: the submission stops at the avatar. *)
Lemma rendered_form_submission :
  submit bucket (holding rendered)
  = {| state :=
         {| output := EmptyString;
            values := rendered;
            errors := [{| code := custom;
                          path := [Key "avatar"];
                          message := None |}] |};
       trace := [] |}.
Proof.
  vm_compute. reflexivity.
Qed.

(** Leading and trailing spaces are trimmed before the split, so they leave
    no empty word behind. *)
Lemma trimmed_name_is_parsed :
  nameSchema [Key "name"] "  ana maria " = Normal (OK "Ana Maria", []).
Proof.
  vm_compute. reflexivity.
Qed.

(** A name of spaces only passes the nonempty check and throws. *)
Lemma blank_name_throws :
  nameSchema [Key "name"] "   " = Abrupt TypeError.
Proof.
  vm_compute. reflexivity.
Qed.


(** C9, as stated, fails: a name that starts with two spaces passes the
    nonempty check and has empty words when split on single spaces, but the
    transform trims it first, and it is parsed. *)
Lemma leading_spaces_name_is_parsed :
  "  ana" <> EmptyString
  /\ In EmptyString (JsString.split " " "  ana")
  /\ nameSchema [Key "name"] "  ana" = Normal (OK "Ana", []).
Proof.
  split; [discriminate|]. split; [left; reflexivity|].
  vm_compute. reflexivity.
Qed.

(** White space other than the space is trimmed too, the no-break space
    (code unit 160) included. *)
Lemma no_break_space_is_trimmed :
  nameSchema [Key "name"]
    (String (ascii_of_nat 160) (String (ascii_of_nat 9) "ana maria"))
  = Normal (OK "Ana Maria", [])
  /\ nameSchema [Key "name"] (String (ascii_of_nat 160) EmptyString)
     = Abrupt TypeError.
Proof.
  split; vm_compute; reflexivity.
Qed.

(** The upper case of the first code unit is the host's: here 233 (e with
    an acute accent) becomes 201, and 223 (sharp s) becomes SS. *)
Lemma latin1_names_are_capitalized :
  nameSchema [Key "name"] (String (ascii_of_nat 233) "lan vital")
  = Normal (OK (String (ascii_of_nat 201) "lan Vital"), [])
  /\ nameSchema [Key "name"] (String (ascii_of_nat 223) "a")
     = Normal (OK "SSa", []).
Proof.
  split; vm_compute; reflexivity.
Qed.

(** The e-mail pattern of the examples takes a comma in the local part and
    no apostrophe. *)
Lemma email_pattern_examples :
  emailRegex "a,b@boo.com.br" = true
  /\ emailRegex "a'b@boo.com.br" = false
  /\ emailRegex "ana.silva@boo.com.br" = true
  /\ emailRegex "ana..silva@boo.com.br" = false
  /\ emailRegex "ana@boo" = false.
Proof.
  repeat split.
Qed.

(** Numerals of the examples: fractions, signs and exponents are read, and
    a double is printed by its shortest decimal. *)
Lemma numeral_examples :
  readNumeral "50.5" = Finite (101 # 2)
  /\ readNumeral "-1" = Finite (-1 # 1)
  /\ readNumeral "1e2" = Finite (100 # 1)
  /\ readNumeral "" = Finite (0 # 1)
  /\ readNumeral "12px" = NaN
  /\ printNumeral (101 # 2) = "50.5"
  /\ match readNumeral "0.1" with
     | Finite q => printNumeral q = "0.1"
     | _ => False
     end.
Proof.
  repeat split; vm_compute; reflexivity.
Qed.

Lemma accepted_submission_uploads_avatar_witness :
  exists file rest,
    FormValues.avatar (values (holding filled)) = Some (file :: rest)
    /\ CreateUserFormData.avatar (parsedFrom filled photo) = Some file
    /\ uploads (trace (submit bucket (holding filled)))
       = [("forms-react", File.name file, file)].
Proof.
  apply (accepted_submission_uploads_avatar bucket (holding filled)
           (parsedFrom filled photo)).
  vm_compute. reflexivity.
Defined.

Lemma invalid_submission_has_no_effect_witness :
  failsValidation (values (holding unnamed))
  /\ uploads (trace (submit bucket (holding unnamed))) = []
  /\ output (state (submit bucket (holding unnamed))) = EmptyString.
Proof.
  assert (failsValidation (values (holding unnamed))) as Hfails
    by (left; reflexivity).
  split; [exact Hfails|].
  apply (invalid_submission_has_no_effect bucket (holding unnamed) Hfails).
Defined.

Lemma output_set_after_upload_settles_witness :
  exists path body response,
    [UploadCalled "forms-react" "ana.png" photo;
     UploadSettled (Normal (UploadData "ana.png"))]
    = [UploadCalled "forms-react" path body; UploadSettled (Normal response)]
    /\ @nil Event = [].
Proof.
  apply (output_set_after_upload_settles bucket (holding filled) _ _
           (JSON.stringify (JSON.ofData (parsedFrom filled photo)) 2)).
  vm_compute. reflexivity.
Defined.


Lemma name_with_empty_word_throws_witness :
  nameSchema [Key "name"] "ana  maria" = Abrupt TypeError
  /\ (forall v, FormValues.name v = "ana  maria" ->
                zodResolver v = Abrupt TypeError).
Proof.
  apply (name_with_empty_word_throws [Key "name"] "ana  maria").
  - discriminate.
  - vm_compute. right. left. reflexivity.
Defined.

Lemma parsed_email_is_lowercase_boo_witness :
  CreateUserFormData.email (parsedFrom filled photo)
  = JsString.toLowerCase (FormValues.email filled)
  /\ JsString.toLowerCase (CreateUserFormData.email (parsedFrom filled photo))
     = CreateUserFormData.email (parsedFrom filled photo)
  /\ Forall (fun c => JsString.isUpperAscii c = false)
       (list_ascii_of_string
          (CreateUserFormData.email (parsedFrom filled photo)))
  /\ JsString.endsWith (CreateUserFormData.email (parsedFrom filled photo))
       "@boo.com.br" = true.
Proof.
  apply (parsed_email_is_lowercase_boo filled (parsedFrom filled photo)).
  vm_compute. reflexivity.
Defined.

End Examples.

(** * Further properties of the schema *)

Section SchemaFacts.

Context {rt : Runtime}.

(** The four ways the avatar is parsed. *)
Lemma avatarSchema_cases at_ input :
  match input with
  | None =>
      avatarSchema at_ input
      = Normal (INVALID, [{| code := custom; path := at_; message := None |}])
  | Some [] => avatarSchema at_ input = Abrupt TypeError
  | Some (file :: _) =>
      avatarSchema at_ input
      = if (File.size file <=? 5 * 1024 * 1024)%Z
        then Normal (OK (Some file), [])
        else Normal (DIRTY (Some file),
                     [issue custom at_ "O arquivo precisa ter no máximo 5Mb"])
  end.
Proof.
  destruct input as [[|file rest]|]; reflexivity.
Qed.

Lemma nameSchema_cases at_ input :
  match input with
  | EmptyString =>
      nameSchema at_ input
      = Normal (DIRTY_BASE, [issue too_small at_ "O nome é obrigatório"])
  | _ =>
      (In EmptyString (JsString.split " " (JsString.trim input))
       /\ nameSchema at_ input = Abrupt TypeError)
      \/ (~ In EmptyString (JsString.split " " (JsString.trim input))
          /\ nameSchema at_ input = Normal (OK (capitalizedName input), []))
  end.
Proof.
  destruct input as [|c rest]; [reflexivity|].
  unfold nameSchema, ZodEffects.transform, ZodString._parse,
    ZodString.nonempty, ZodString.create.
  cbn [app ZodString.runChecks String.length Nat.ltb Nat.leb bindC].
  destruct (nameTransform_cases (String c rest)) as [[Hin ->] | [Hnot ->]];
    [left | right]; split; auto.
Qed.

Lemma emailSchema_returns at_ input :
  emailSchema at_ input
  = Normal (match emailIssues at_ input with
            | [] => OK (JsString.toLowerCase input)
            | _ => DIRTY (JsString.toLowerCase input)
            end,
            emailIssues at_ input).
Proof.
  unfold emailSchema, ZodEffects.refine, ZodString._parse,
    ZodString.toLowerCase, ZodString.email, ZodString.nonempty,
    ZodString.create, emailDomainCheck, emailIssues.
  cbn [app ZodString.runChecks bindC].
  destruct input as [|c rest];
    cbn [String.length Nat.ltb Nat.leb];
    destruct (isEmail _); cbn [dirty app];
    destruct (JsString.endsWith _ _); reflexivity.
Qed.

Lemma passwordSchema_returns at_ input :
  passwordSchema at_ input
  = if (String.length input <? 6)%nat
    then Normal (DIRTY input,
                 [issue too_small at_
                    "A senha precisa de no mínimo 6 caracteres"])
    else Normal (OK input, []).
Proof.
  unfold passwordSchema, ZodString._parse, ZodString.min, ZodString.create.
  cbn [app ZodString.runChecks].
  now destruct (String.length input <? 6)%nat.
Qed.

Lemma isValid_mergeObject {A B : Type} (object : ParseReturn (A -> B))
  (r : ParseReturn A) :
  isValid (mergeObject object r) = isValid object && isValid r.
Proof.
  destruct object, r; reflexivity.
Qed.

(** One entry of [techs]: it aborts exactly on a knowledge that is not a
    number, reports an issue whenever it is not valid, and its issues carry
    the message of the title or no message. *)
Lemma techSchema_issues at_ tech :
  exists r issues,
    techSchema at_ tech = Normal (r, issues)
    /\ (r = INVALID <->
        JsNumber.isNaN (Number (TechInput.knowledge tech)) = true)
    /\ (isValid r = true \/ issues <> [])
    /\ Forall (fun i => message i = None
                        \/ message i = Some "O título é obrigatório") issues.
Proof.
  unfold techSchema, ZodObject.field, ZodObject.create, titleSchema,
    knowledgeSchema, ZodString._parse, ZodString.nonempty, ZodString.create,
    ZodNumber._parse, ZodNumber.max, ZodNumber.min, ZodNumber.create_coerce.
  cbn [app ZodString.runChecks ZodNumber.runChecks bindC].
  destruct (TechInput.title tech) as [|c rest];
    cbn [String.length Nat.ltb Nat.leb];
    destruct (JsNumber.isNaN (Number (TechInput.knowledge tech)));
    cbn [bindC];
    try (destruct (JsNumber.lt _ _); destruct (JsNumber.gt _ _));
    cbn [dirty mergeObject app]; eexists _, _; (split; [reflexivity|]);
    (split; [split; congruence|]);
    (split; [(left; reflexivity) || (right; discriminate)|]);
    repeat (apply Forall_cons || apply Forall_nil); cbn [message]; auto.
Qed.

Lemma parseItems_techs_issues at_ index items :
  exists results issues,
    ZodArray.parseItems techSchema at_ index items = Normal (results, issues)
    /\ (mergeArray results = OK (map coerced items)
        \/ mergeArray results = DIRTY (map coerced items)
        \/ mergeArray results = INVALID)
    /\ (mergeArray results = INVALID <->
        Exists (fun tech =>
                  JsNumber.isNaN (Number (TechInput.knowledge tech)) = true)
          items)
    /\ (isValid (mergeArray results) = true \/ issues <> [])
    /\ Forall (fun i => message i = None
                        \/ message i = Some "O título é obrigatório") issues.
Proof.
  revert index. induction items as [|tech rest IH]; intros index.
  - exists [], []. cbn. repeat split; auto.
    + discriminate.
    + intros H. inversion H.
  - cbn [ZodArray.parseItems].
    destruct (techSchema_returns (at_ ++ [Index index]) tech)
      as (r & found & Hr & Hshape & _).
    destruct (techSchema_issues (at_ ++ [Index index]) tech)
      as (r' & found' & Hr' & Hnan & Hrep & Hmsg).
    rewrite Hr in Hr'. injection Hr' as <- <-. rewrite Hr.
    destruct (IH (S index)) as (rs & more & -> & Hrs & Hnans & Hreps & Hmsgs).
    cbn [bindC]. eexists _, _. split; [reflexivity|].
    cbn [mergeArray map].
    assert (found ++ more = [] -> found = [] /\ more = []) as Hnil
      by apply app_eq_nil.
    split; [|split; [|split]].
    + destruct Hshape as [-> | [-> | ->]], Hrs as [Hm | [Hm | Hm]];
        rewrite Hm; cbn [mergeObject]; auto.
    + rewrite Exists_cons, <- Hnan, <- Hnans.
      destruct Hshape as [-> | [-> | ->]], Hrs as [Hm | [Hm | Hm]];
        rewrite Hm; cbn [mergeObject];
        (split; [intros E; (now left) || (now right) || discriminate E
                | intros [E | E]; (reflexivity || discriminate E)]).
    + destruct Hrep as [Hv | Hne].
      * destruct Hreps as [Hvs | Hnes].
        -- left. rewrite !isValid_mergeObject, Hv, Hvs. reflexivity.
        -- right. intros E. apply Hnil in E. now destruct E.
      * right. intros E. apply Hnil in E. now destruct E.
    + apply Forall_app. now split.
Qed.

(** The shape of what the schema of [techs] returns: the issue of the
    length, the issues of the entries, and the issue of the refinement,
    which runs unless the array aborted. *)
Lemma techsSchema_shape at_ items :
  exists r found (learning : bool),
    techsSchema at_ items
    = Normal (r,
              ((if (List.length items <? 2)%nat
                then [issue too_small at_ "Insira no mínimo duas tecnologias"]
                else [])
               ++ found)
              ++ (if learning
                  then [issue custom at_ "Você está aprendendo!"]
                  else []))
    /\ (learning = true <->
        ~ Exists (fun tech =>
                    JsNumber.isNaN (Number (TechInput.knowledge tech)) = true)
            items
        /\ ~ Exists (fun tech =>
                       above50 (Number (TechInput.knowledge tech)) = true)
               items)
    /\ (isValid r = true
        \/ (List.length items <? 2)%nat = true \/ found <> []
        \/ learning = true)
    /\ Forall (fun i => message i = None
                        \/ message i = Some "O título é obrigatório") found
    /\ exists results,
         ZodArray.parseItems techSchema at_ 0 items = Normal (results, found).
Proof.
  destruct (parseItems_techs_issues at_ 0 items)
    as (rs & found & Hrs & Hshape & Hnan & Hrep & Hmsg).
  pose proof (some_above50 items) as Habove. unfold techsCheck in Habove.
  unfold techsSchema, ZodEffects.refine, ZodArray._parse, ZodArray.tooShort,
    ZodArray.min, ZodArray.create, techsCheck.
  cbn [ZodArray.element ZodArray.minLength]. rewrite Hrs. cbn [bindC].
  assert (forall b : bool, Normal b = Normal true <-> b = true) as Hnormal
    by (intros b; split; [now intros [= ->] | now intros ->]).
  rewrite Hnormal in Habove.
  destruct Hshape as [Hm | [Hm | Hm]].
  - (* every entry valid *)
    destruct (existsb _ (map coerced items)) eqn:Hex;
      [exists (if (List.length items <? 2)%nat
               then DIRTY (map coerced items) else OK (map coerced items)),
         found, false
      |exists (DIRTY (map coerced items)), found, true];
      rewrite Hm; destruct (List.length items <? 2)%nat;
      cbn [bindC dirty]; rewrite Hex; cbn [dirty]; rewrite ?app_nil_r;
      (split; [reflexivity|]); (split; [|split; [auto|split; [exact Hmsg|now exists rs]]]).
    + split; [discriminate|]. intros [_ Ha]. exfalso. now apply Ha, Habove.
    + split; [discriminate|]. intros [_ Ha]. exfalso. now apply Ha, Habove.
    + split; [intros _|reflexivity]. split.
      * intros E. apply Hnan in E. rewrite Hm in E. discriminate.
      * intros E. apply Habove in E. discriminate.
    + split; [intros _|reflexivity]. split.
      * intros E. apply Hnan in E. rewrite Hm in E. discriminate.
      * intros E. apply Habove in E. discriminate.
  - (* some entry dirty, none aborted *)
    assert (found <> []) as Hfound.
    { destruct Hrep as [Hv | Hne]; [|exact Hne].
      rewrite Hm in Hv. discriminate. }
    destruct (existsb _ (map coerced items)) eqn:Hex;
      [exists (DIRTY (map coerced items)), found, false
      |exists (DIRTY (map coerced items)), found, true];
      rewrite Hm; destruct (List.length items <? 2)%nat;
      cbn [bindC dirty]; rewrite Hex; cbn [dirty]; rewrite ?app_nil_r;
      (split; [reflexivity|]); (split; [|split; [auto|split; [exact Hmsg|now exists rs]]]).
    + split; [discriminate|]. intros [_ Ha]. exfalso. now apply Ha, Habove.
    + split; [discriminate|]. intros [_ Ha]. exfalso. now apply Ha, Habove.
    + split; [intros _|reflexivity]. split.
      * intros E. apply Hnan in E. rewrite Hm in E. discriminate.
      * intros E. apply Habove in E. discriminate.
    + split; [intros _|reflexivity]. split.
      * intros E. apply Hnan in E. rewrite Hm in E. discriminate.
      * intros E. apply Habove in E. discriminate.
  - (* some knowledge is not a number *)
    assert (found <> []) as Hfound.
    { destruct Hrep as [Hv | Hne]; [|exact Hne].
      rewrite Hm in Hv. discriminate. }
    exists INVALID, found, false.
    rewrite Hm; destruct (List.length items <? 2)%nat;
      cbn [bindC dirty]; rewrite ?app_nil_r;
      (split; [reflexivity|]); (split; [|split; [auto|split; [exact Hmsg|now exists rs]]]);
      (split; [discriminate|]); intros [Hn _]; exfalso; now apply Hn, Hnan.
Qed.

(** X7.  The schema of [techs] never throws.  It reports "Insira no mínimo
    duas tecnologias" exactly when the list has fewer than two entries, and
    "Você está aprendendo!" exactly when no knowledge is above 50 and every
    knowledge is a number: one knowledge that is not a number aborts the
    array, and the refinement is then not run. *)
Theorem techs_messages (at_ : list PathSegment) (items : list TechInput.t) :
  exists r issues,
    techsSchema at_ items = Normal (r, issues)
    /\ (In (issue too_small at_ "Insira no mínimo duas tecnologias") issues
        <-> List.length items < 2)
    /\ (In (issue custom at_ "Você está aprendendo!") issues
        <-> ~ Exists (fun tech =>
                        JsNumber.isNaN (Number (TechInput.knowledge tech))
                        = true) items
            /\ ~ Exists (fun tech =>
                           above50 (Number (TechInput.knowledge tech)) = true)
                   items)
    /\ (isValid r = true \/ issues <> []).
Proof.
  destruct (techsSchema_shape at_ items)
    as (r & found & learning & Heq & Hlearning & Hrep & Hmsg & _).
  eexists _, _. split; [exact Heq|].
  assert (forall c text,
             text <> "O título é obrigatório" ->
             ~ In (issue c at_ text) found) as Hother.
  { intros c text Htext Hin. rewrite Forall_forall in Hmsg.
    apply Hmsg in Hin. cbn in Hin. destruct Hin as [Hin | Hin]; congruence. }
  pose proof (Hother too_small "Insira no mínimo duas tecnologias") as Hmin.
  pose proof (Hother custom "Você está aprendendo!") as Hsome.
  rewrite <- Hlearning. rewrite !in_app_iff.
  split; [|split].
  - destruct (List.length items <? 2)%nat eqn:Hlen;
      [apply Nat.ltb_lt in Hlen | apply Nat.ltb_ge in Hlen].
    + split; [intros _; exact Hlen | intros _; left; left; left; reflexivity].
    + split; [|lia]. intros [[Hin | Hin] | Hin].
      * destruct Hin.
      * exfalso. apply Hmin; [discriminate | exact Hin].
      * destruct learning; cbn in Hin; [|destruct Hin].
        destruct Hin as [Hin | []]. discriminate.
  - split.
    + intros [[Hin | Hin] | Hin].
      * destruct (List.length items <? 2)%nat; cbn in Hin;
          [destruct Hin as [Hin | []]; discriminate | destruct Hin].
      * exfalso. apply Hsome; [discriminate | exact Hin].
      * destruct learning; [reflexivity | destruct Hin].
    + intros ->. right. left. reflexivity.
  - destruct Hrep as [Hv | [Hlen | [Hne | ->]]].
    + now left.
    + right. rewrite Hlen. discriminate.
    + right. intros E. apply app_eq_nil in E. destruct E as [E _].
      apply app_eq_nil in E. now destruct E.
    + right. intros E. apply app_eq_nil in E. destruct E as [_ E].
      discriminate.
Qed.

Lemma techs_shape_reports at_ items :
  exists r issues,
    techsSchema at_ items = Normal (r, issues)
    /\ (isValid r = true \/ issues <> []).
Proof.
  destruct (techsSchema_shape at_ items)
    as (r & found & learning & Heq & _ & Hrep & _).
  eexists _, _. split; [exact Heq|].
  destruct Hrep as [Hv | [Hlen | [Hne | ->]]].
  - now left.
  - right. rewrite Hlen. discriminate.
  - right. intros E. apply app_eq_nil in E. destruct E as [E _].
    apply app_eq_nil in E. now destruct E.
  - right. intros E. apply app_eq_nil in E. destruct E as [_ E].
    discriminate.
Qed.

(** The object schema, key by key. *)
Lemma createUserFormSchema_unfold (v : FormValues.t) :
  createUserFormSchema [] v
  = (let! (a, i1) := avatarSchema [Key "avatar"] (FormValues.avatar v) in
     let! (n, i2) := nameSchema [Key "name"] (FormValues.name v) in
     let! (e, i3) := emailSchema [Key "email"] (FormValues.email v) in
     let! (p, i4) := passwordSchema [Key "password"] (FormValues.password v) in
     let! (t, i5) := techsSchema [Key "techs"] (FormValues.techs v) in
     Normal (mergeObject
               (mergeObject
                  (mergeObject
                     (mergeObject
                        (mergeObject (OK CreateUserFormData.Build_t) a) n)
                     e)
                  p)
               t,
             ((((([] ++ i1) ++ i2) ++ i3) ++ i4) ++ i5))).
Proof.
  unfold createUserFormSchema, ZodObject.field, ZodObject.create.
  cbn [app bindC].
  destruct (avatarSchema _ _) as [[a i1]|e1]; [|reflexivity].
  destruct (nameSchema _ _) as [[n i2]|e2]; [|reflexivity].
  destruct (emailSchema _ _) as [[e i3]|e3]; [|reflexivity].
  destruct (passwordSchema _ _) as [[p i4]|e4]; [|reflexivity].
  destruct (techsSchema _ _) as [[t i5]|e5]; reflexivity.
Qed.

Lemma createUserFormSchema_throws (v : FormValues.t) :
  throwsOn v -> createUserFormSchema [] v = Abrupt TypeError.
Proof.
  intros Hthrows. unfold throwsOn in Hthrows.
  rewrite createUserFormSchema_unfold.
  pose proof (avatarSchema_cases [Key "avatar"] (FormValues.avatar v)) as Ha.
  destruct (FormValues.avatar v) as [[|file rest]|]; rewrite Ha.
  - reflexivity.
  - destruct Hthrows as [[=] | [Hne Hword]].
    pose proof (nameSchema_cases [Key "name"] (FormValues.name v)) as Hn.
    destruct (FormValues.name v) as [|c name]; [congruence|].
    destruct Hn as [[_ Hn] | [Hnot _]]; [|contradiction]. rewrite Hn.
    now destruct (File.size file <=? 5 * 1024 * 1024)%Z.
  - destruct Hthrows as [[=] | [Hne Hword]].
    pose proof (nameSchema_cases [Key "name"] (FormValues.name v)) as Hn.
    destruct (FormValues.name v) as [|c name]; [congruence|].
    destruct Hn as [[_ Hn] | [Hnot _]]; [|contradiction]. now rewrite Hn.
Qed.

Lemma createUserFormSchema_reports (v : FormValues.t) :
  ~ throwsOn v ->
  exists r issues,
    createUserFormSchema [] v = Normal (r, issues)
    /\ (isValid r = true \/ issues <> []).
Proof.
  intros Hquiet. unfold throwsOn in Hquiet.
  rewrite createUserFormSchema_unfold.
  assert (exists a i1,
             avatarSchema [Key "avatar"] (FormValues.avatar v) = Normal (a, i1)
             /\ (isValid a = true \/ i1 <> [])) as (a & i1 & -> & Ha).
  { pose proof (avatarSchema_cases [Key "avatar"] (FormValues.avatar v)) as H.
    destruct (FormValues.avatar v) as [[|file rest]|]; rewrite H.
    - exfalso. apply Hquiet. now left.
    - destruct (File.size file <=? 5 * 1024 * 1024)%Z; eexists _, _;
        (split; [reflexivity|]); [now left | right; discriminate].
    - eexists _, _. split; [reflexivity|]. right. discriminate. }
  assert (exists n i2,
             nameSchema [Key "name"] (FormValues.name v) = Normal (n, i2)
             /\ (isValid n = true \/ i2 <> [])) as (n & i2 & -> & Hn).
  { pose proof (nameSchema_cases [Key "name"] (FormValues.name v)) as H.
    unfold throwsOn in Hquiet.
    destruct (FormValues.name v) as [|c name].
    - rewrite H. eexists _, _. split; [reflexivity|]. right. discriminate.
    - destruct H as [[Hin _] | [_ ->]].
      + exfalso. apply Hquiet. right. split; [discriminate | exact Hin].
      + eexists _, _. split; [reflexivity|]. now left. }
  rewrite emailSchema_returns, passwordSchema_returns.
  destruct (techs_shape_reports [Key "techs"] (FormValues.techs v))
    as (t & i5 & -> & Ht).
  cbn [bindC].
  destruct (String.length (FormValues.password v) <? 6)%nat;
    destruct (emailIssues [Key "email"] (FormValues.email v)) as [|i3 is3];
    cbn [bindC]; eexists _, _; (split; [reflexivity|]);
    rewrite !isValid_mergeObject; cbn [isValid andb app];
    destruct Ha as [-> | Ha], Hn as [-> | Hn], Ht as [-> | Ht];
    cbn [andb]; try (left; reflexivity); right; intros E;
    repeat (apply app_eq_nil in E; destruct E as [E ?]);
    subst; try discriminate; try contradiction.
Qed.

End SchemaFacts.

(** * Further properties of the page *)

Section SchemaProperties.

Context {rt : Runtime}.

Lemma throwsOn_dec (v : FormValues.t) : throwsOn v \/ ~ throwsOn v.
Proof.
  unfold throwsOn.
  destruct (FormValues.avatar v) as [[|file rest]|];
    [left; left; reflexivity | |];
    (destruct (FormValues.name v) as [|c name];
     [ right; intros [[=] | [Hne _]]; now apply Hne
     | destruct (in_dec string_dec EmptyString
                   (JsString.split " " (JsString.trim (String c name))))
         as [Hin | Hnot];
       [ left; right; split; [discriminate | exact Hin]
       | right; intros [[=] | [_ Hin]]; now apply Hnot ] ]).
Qed.

Lemma zodResolver_throws (v : FormValues.t) :
  throwsOn v -> zodResolver v = Abrupt TypeError.
Proof.
  intros Hthrows. unfold zodResolver, parseAsync.
  now rewrite (createUserFormSchema_throws v Hthrows).
Qed.

Lemma zodResolver_returns (v : FormValues.t) :
  ~ throwsOn v -> exists resolved, zodResolver v = Normal resolved.
Proof.
  intros Hquiet.
  destruct (createUserFormSchema_reports v Hquiet) as (r & issues & Heq & Hrep).
  unfold zodResolver, parseAsync. rewrite Heq. cbn [bindC].
  destruct r as [data|data| |]; [eexists; reflexivity | | |];
    (destruct Hrep as [[=] | Hne]);
    (destruct issues as [|i issues]; [contradiction|]);
    eexists; reflexivity.
Qed.

(** X1.  The resolver throws exactly on an avatar list with no file in it
    or on a nonempty name with an empty word, and what it throws is a
    [TypeError]: on every other input it returns values or errors, and a
    failed validation always carries an issue. *)
Theorem resolver_throws_iff (v : FormValues.t) (e : JsError) :
  zodResolver v = Abrupt e <-> e = TypeError /\ throwsOn v.
Proof.
  split.
  - intros Hres. destruct (throwsOn_dec v) as [Hthrows | Hquiet].
    + rewrite (zodResolver_throws v Hthrows) in Hres.
      injection Hres as <-. now split.
    + destruct (zodResolver_returns v Hquiet) as [resolved Heq].
      rewrite Heq in Hres. discriminate.
  - intros [-> Hthrows]. now apply zodResolver_throws.
Qed.

Lemma acceptable_parsed (v : FormValues.t) :
  acceptable v ->
  exists file rest,
    FormValues.avatar v = Some (file :: rest)
    /\ zodResolver v = Normal (Values (parsedFrom v file)).
Proof.
  intros ((file & rest & Hav & Hsize) & Hname & Hwords & Hformat & Hdomain
          & Hpassword & Hlen & Hvalid & Hsome).
  exists file, rest. split; [exact Hav|].
  unfold zodResolver, parseAsync. rewrite createUserFormSchema_unfold.
  pose proof (avatarSchema_cases [Key "avatar"] (FormValues.avatar v)) as Ha.
  rewrite Hav in Ha. rewrite Hav, Ha.
  apply Z.leb_le in Hsize. rewrite Hsize. cbn [bindC].
  pose proof (nameSchema_cases [Key "name"] (FormValues.name v)) as Hn.
  destruct (FormValues.name v) as [|c name] eqn:Hnm; [congruence|].
  destruct Hn as [[Hin _] | [_ ->]]; [contradiction|]. cbn [bindC].
  rewrite emailSchema_returns.
  assert (emailIssues [Key "email"] (FormValues.email v) = []) as ->.
  { unfold emailIssues. rewrite Hformat, Hdomain.
    destruct (FormValues.email v); [discriminate Hdomain | reflexivity]. }
  cbn [bindC]. rewrite passwordSchema_returns.
  apply Nat.ltb_ge in Hpassword. rewrite Hpassword. cbn [bindC].
  destruct (techsSchema_accepts [Key "techs"] (FormValues.techs v)
              Hlen Hvalid Hsome) as [issues ->].
  cbn [bindC mergeObject]. unfold parsedFrom. rewrite Hnm. reflexivity.
Qed.

(** X2.  The resolver accepts the values of the form exactly when the
    avatar is a list whose first file has at most 5 * 1024 * 1024 bytes, the
    name is nonempty and, trimmed, has no empty word, the e-mail has the
    format and in lower case ends with "@boo.com.br", the password has at
    least 6 code units, and the techs are at least two valid entries, one of
    them above 50. *)
Theorem accepts_iff_acceptable (v : FormValues.t) :
  accepts v = true <-> acceptable v.
Proof.
  split.
  - intros Hacc. apply accepts_true in Hacc.
    destruct Hacc as (file & rest & Hav & Hres).
    apply zodResolver_Values in Hres. destruct Hres as [issues Hschema].
    apply createUserFormSchema_OK in Hschema.
    destruct Hschema as (file' & rest' & Hav' & _ & Hsize & Hrest).
    split; [now exists file', rest' | exact Hrest].
  - intros Hok. destruct (acceptable_parsed v Hok) as (file & rest & _ & Hres).
    unfold accepts. now rewrite Hres.
Qed.

(** X3.  Of an avatar list only the first file is looked at: the files
    after it change nothing, the first is accepted up to and including
    5 * 1024 * 1024 bytes, and a larger one is reported with the message of
    the source instead of being parsed. *)
Theorem avatar_first_file_decides (at_ : list PathSegment) (file : File.t)
  (rest : FileList) :
  avatarSchema at_ (Some (file :: rest)) = avatarSchema at_ (Some [file])
  /\ (avatarSchema at_ (Some (file :: rest)) = Normal (OK (Some file), [])
      <-> (File.size file <= 5242880)%Z)
  /\ (avatarSchema at_ (Some (file :: rest))
      = Normal (DIRTY (Some file),
                [issue custom at_ "O arquivo precisa ter no máximo 5Mb"])
      <-> (5242880 < File.size file)%Z).
Proof.
  pose proof (avatarSchema_cases at_ (Some (file :: rest))) as Hall.
  pose proof (avatarSchema_cases at_ (Some [file])) as Hone.
  cbn beta iota in Hall, Hone. rewrite Hall, Hone.
  change (5 * 1024 * 1024)%Z with 5242880%Z.
  destruct (File.size file <=? 5242880)%Z eqn:Hsize;
    [apply Z.leb_le in Hsize | apply Z.leb_gt in Hsize].
  - repeat split; intros; try lia; discriminate || reflexivity.
  - repeat split; intros; try lia; discriminate || reflexivity.
Qed.

(** X6.  The checks of the e-mail do not stop at the first failure: the
    schema never throws or aborts, its value is always the input in lower
    case, and each of the three messages is reported exactly when its own
    check fails, the domain being looked for in the lowered text. *)
Theorem email_checks_all_run (at_ : list PathSegment) (input : string) :
  exists r issues,
    emailSchema at_ input = Normal (r, issues)
    /\ (r = OK (JsString.toLowerCase input)
        \/ r = DIRTY (JsString.toLowerCase input))
    /\ (r = OK (JsString.toLowerCase input) <-> issues = [])
    /\ (In (issue too_small at_ "O e-mail é obrigatório") issues
        <-> input = EmptyString)
    /\ (In (issue invalid_string at_ "Formato de e-mail inválido") issues
        <-> isEmail input = false)
    /\ (In (issue custom at_ "O e-mail precisa ser da boo") issues
        <-> JsString.endsWith (JsString.toLowerCase input) "@boo.com.br"
            = false).
Proof.
  eexists _, _. split; [apply emailSchema_returns|].
  unfold emailIssues.
  destruct input as [|c rest];
    destruct (isEmail _);
    destruct (JsString.endsWith _ _);
    cbn [app In];
    repeat split; auto; try discriminate;
    try (intros [E | E]; discriminate E || (now destruct E));
    try (intros [E | [E | E]]; discriminate E || (now destruct E));
    try (intros [E | [E | [E | E]]]; discriminate E || (now destruct E));
    try (intros []).
Qed.

End SchemaProperties.

Section PageProperties.

Context {rt : Runtime}.

(** X12.  A submission on which the schema throws fails silently: the
    exception leaves [handleSubmit], nothing is uploaded, and the page keeps
    its output and the errors of the attempt before, with no new message. *)
Theorem throwing_submission_changes_nothing (remote : Remote) (s : AppState) :
  throwsOn (values s) ->
  run remote onSubmit (start s) = (Abrupt TypeError, start s).
Proof.
  intros Hthrows. unfold onSubmit. rewrite run_handleSubmit.
  now rewrite (zodResolver_throws (values s) Hthrows).
Qed.





(** X8.  The entry a click on "Adicionar" appends does not pass the schema
    (its title is empty and its knowledge is 0): until it is filled in, no
    submission is accepted and none uploads anything, whatever the rest of
    the form holds. *)
Theorem appended_entry_blocks_submission (clicked remote : Remote)
  (s : AppState) :
  accepts (values (state (clickAdicionar clicked s))) = false
  /\ uploads (trace (submit remote (state (clickAdicionar clicked s)))) = []
  /\ output (state (submit remote (state (clickAdicionar clicked s))))
     = output s.
Proof.
  assert (accepts (values (state (clickAdicionar clicked s))) = false) as Hrej.
  { destruct (accepts _) eqn:Hacc; [exfalso | reflexivity].
    apply accepts_true in Hacc. destruct Hacc as (file & rest & _ & Hres).
    apply zodResolver_Values in Hres. destruct Hres as [issues Hschema].
    apply createUserFormSchema_OK in Hschema.
    destruct Hschema as (_ & _ & _ & _ & _ & _ & _ & _ & _ & _ & _ & Hvalid & _).
    unfold clickAdicionar, addNewTech in Hvalid. cbn in Hvalid.
    apply Forall_app in Hvalid. destruct Hvalid as [_ Hblank].
    inversion Hblank as [|? ? [Htitle _] _]. now apply Htitle. }
  split; [exact Hrej|].
  destruct (rejected_handler_not_run remote _ createUser Hrej)
    as (Htrace & Houtput & _).
  unfold submit, onSubmit. rewrite Htrace, Houtput. now split.
Qed.

End PageProperties.

(** * Facts about strings *)

Section StringFacts.

Local Open Scope string_scope.

Lemma append_assoc (a b c : string) : (a ++ b) ++ c = a ++ (b ++ c).
Proof.
  induction a as [|x a IH]; cbn; [reflexivity | now rewrite IH].
Qed.

Lemma append_nil_r (a : string) : a ++ "" = a.
Proof.
  induction a as [|x a IH]; cbn; [reflexivity | now rewrite IH].
Qed.

End StringFacts.

(** * Further properties of the echo *)

Section EchoProperties.

Context {rt : Runtime}.

Local Open Scope string_scope.

Lemma Contains_refl (part : string) : Contains part part.
Proof.
  exists "", "". cbn. now rewrite append_nil_r.
Qed.

Lemma Contains_after (pre s part : string) :
  Contains part s -> Contains part (pre ++ s).
Proof.
  intros (a & b & ->). exists (pre ++ a), b. now rewrite append_assoc.
Qed.

Lemma Contains_before (s post part : string) :
  Contains part s -> Contains part (s ++ post).
Proof.
  intros (a & b & ->). exists a, (b ++ post). now rewrite !append_assoc.
Qed.

Lemma quoteChar_unescaped (c : ascii) :
  unescaped c = true -> JSON.quoteChar c = String c "".
Proof.
  destruct c as [[] [] [] [] [] [] [] []]; intros H;
    (discriminate H || reflexivity).
Qed.

Lemma quoteBody_unescaped (s : string) :
  Forall (fun c => unescaped c = true) (list_ascii_of_string s) ->
  JSON.quoteBody s = s.
Proof.
  induction s as [|c rest IH]; intros Hplain; [reflexivity|].
  cbn in Hplain. inversion Hplain as [|? ? Hc Hrest]; subst.
  cbn [JSON.quoteBody]. rewrite (quoteChar_unescaped c Hc), (IH Hrest).
  reflexivity.
Qed.

Lemma stringify_contains_password (data : CreateUserFormData.t) :
  Contains (JSON.quote (CreateUserFormData.password data))
    (JSON.stringify (JSON.ofData data) 2).
Proof.
  unfold JSON.stringify, JSON.ofData.
  cbn [JSON.serialize map JsString.join fst snd Nat.min JSON.spaces].
  do 3 apply Contains_after. apply Contains_before.
  do 6 apply Contains_after. apply Contains_before.
  do 2 apply Contains_after. apply Contains_refl.
Qed.

(** X11.  The text a submission echoes holds the password of the form,
    JSON-quoted; a password of code units that JSON does not escape stands
    there between its quotes as it was typed. *)
Theorem echo_shows_password (remote : Remote) (s : AppState)
  (text : string) :
  In (OutputSet text) (trace (submit remote s)) ->
  Contains (JSON.quote (FormValues.password (values s))) text
  /\ (Forall (fun c => unescaped c = true)
        (list_ascii_of_string (FormValues.password (values s))) ->
      Contains (JSON.DQUOTE ++ FormValues.password (values s) ++ JSON.DQUOTE)
        text).
Proof.
  intros Hin.
  assert (Contains (JSON.quote (FormValues.password (values s))) text)
    as Hquoted.
  { destruct (submit_outcome remote s) as [e He | found Hf
      | file rest e Hav Hvalues Hremote
      | file rest response Hav Hvalues Hremote];
      cbn [trace start] in Hin.
    - destruct Hin.
    - destruct Hin.
    - destruct Hin as [Hin | [Hin | []]]; discriminate.
    - destruct Hin as [Hin | [Hin | [Hin | []]]]; try discriminate.
      injection Hin as <-.
      apply (stringify_contains_password (parsedFrom (values s) file)). }
  split; [exact Hquoted|].
  intros Hplain. unfold JSON.quote in Hquoted.
  now rewrite (quoteBody_unescaped _ Hplain) in Hquoted.
Qed.

End EchoProperties.

(** * Where the issues of the entries are reported *)

Section EntryPaths.

Context {rt : Runtime}.

Lemma techSchema_title_issue (at_ other : list PathSegment)
  (tech : TechInput.t) :
  exists r issues,
    techSchema at_ tech = Normal (r, issues)
    /\ (In (issue too_small (other ++ [Key "title"]) "O título é obrigatório")
          issues
        <-> other = at_ /\ TechInput.title tech = EmptyString).
Proof.
  unfold techSchema, ZodObject.field, ZodObject.create, titleSchema,
    knowledgeSchema, ZodString._parse, ZodString.nonempty, ZodString.create,
    ZodNumber._parse, ZodNumber.max, ZodNumber.min, ZodNumber.create_coerce.
  cbn [app ZodString.runChecks ZodNumber.runChecks bindC].
  assert (forall q : list PathSegment,
             issue too_small (other ++ [Key "title"]) "O título é obrigatório"
             = {| code := too_small; path := q ++ [Key "title"];
                  message := Some "O título é obrigatório" |}
             -> other = q) as Hpath.
  { intros q [= E]. now apply app_inj_tail in E. }
  destruct (TechInput.title tech) as [|c rest];
    cbn [String.length Nat.ltb Nat.leb];
    destruct (JsNumber.isNaN (Number (TechInput.knowledge tech)));
    cbn [bindC];
    try (destruct (JsNumber.lt _ _); destruct (JsNumber.gt _ _));
    cbn [dirty mergeObject app]; eexists _, _; (split; [reflexivity|]);
    cbn [In]; split;
    try (intros [_ E]; discriminate E);
    try (intros [-> _]; left; reflexivity);
    intros H;
    repeat (destruct H as [H | H]; try discriminate H; try contradiction);
    try contradiction;
    (split; [apply Hpath; now symmetry | reflexivity]).
Qed.

Lemma parseItems_title_issue (at_ : list PathSegment) (first i : nat)
  (items : list TechInput.t) :
  exists results issues,
    ZodArray.parseItems techSchema at_ first items = Normal (results, issues)
    /\ (In (issue too_small ((at_ ++ [Index i]) ++ [Key "title"])
              "O título é obrigatório") issues
        <-> first <= i
            /\ exists tech,
                 nth_error items (i - first) = Some tech
                 /\ TechInput.title tech = EmptyString).
Proof.
  revert first. induction items as [|tech rest IH]; intros first.
  - exists [], []. split; [reflexivity|]. split; [intros []|].
    intros (_ & tech & Hnth & _). now destruct (i - first).
  - cbn [ZodArray.parseItems].
    destruct (techSchema_title_issue (at_ ++ [Index first]) (at_ ++ [Index i])
                tech) as (r & found & -> & Hhere).
    destruct (IH (S first)) as (rs & more & -> & Hlater).
    cbn [bindC]. eexists _, _. split; [reflexivity|].
    rewrite in_app_iff, Hhere, Hlater. split.
    + intros [[Hi Htitle] | (Hle & t & Hnth & Htitle)].
      * apply app_inv_head in Hi. injection Hi as ->.
        split; [lia|]. exists tech. now rewrite Nat.sub_diag.
      * split; [lia|]. exists t. split; [|exact Htitle].
        replace (i - first) with (S (i - S first)) by lia. exact Hnth.
    + intros (Hle & t & Hnth & Htitle).
      destruct (Nat.eq_dec i first) as [-> | Hne].
      * left. rewrite Nat.sub_diag in Hnth. injection Hnth as ->.
        now split.
      * right. split; [lia|]. exists t. split; [|exact Htitle].
        replace (i - first) with (S (i - S first)) in Hnth by lia.
        exact Hnth.
Qed.

(** X13.  An empty title is reported at the index of its entry and nowhere
    else: the issues of [techs] hold the message of the title at the path
    techs.i.title exactly when the entry at index i has an empty title. *)
Theorem title_issue_at_its_index (at_ : list PathSegment) (i : nat)
  (items : list TechInput.t) :
  exists r issues,
    techsSchema at_ items = Normal (r, issues)
    /\ (In (issue too_small ((at_ ++ [Index i]) ++ [Key "title"])
              "O título é obrigatório") issues
        <-> exists tech,
              nth_error items i = Some tech
              /\ TechInput.title tech = EmptyString).
Proof.
  destruct (techsSchema_shape at_ items)
    as (r & found & learning & Heq & _ & _ & Hmsg & rs & Hrs).
  destruct (parseItems_title_issue at_ 0 i items)
    as (rs' & found' & Hrs' & Hfound).
  rewrite Hrs in Hrs'. injection Hrs' as <- <-.
  rewrite Nat.sub_0_r in Hfound.
  eexists _, _. split; [exact Heq|].
  rewrite !in_app_iff, Hfound. split.
  - intros [[Hin | Hin] | Hin].
    + destruct (List.length items <? 2)%nat; cbn in Hin; [|destruct Hin].
      destruct Hin as [[= E] | []].
    + now destruct Hin.
    + destruct learning; cbn in Hin; [|destruct Hin].
      destruct Hin as [[= E] | []].
  - intros Htech. left. right. split; [lia | exact Htech].
Qed.

End EntryPaths.

(** * The further properties on the examples *)

Section FurtherExamples.

#[local] Existing Instance Example.runtime.

Import Example.

Local Open Scope string_scope.

Lemma throwing_submission_changes_nothing_witness :
  let doubled :=
    {| output := "earlier";
       values := {| FormValues.avatar := FormValues.avatar filled;
                    FormValues.name := "ana  maria";
                    FormValues.email := FormValues.email filled;
                    FormValues.password := FormValues.password filled;
                    FormValues.techs := FormValues.techs filled |};
       errors := [issue too_small [Key "name"] "O nome é obrigatório"] |} in
  run bucket onSubmit (start doubled) = (Abrupt TypeError, start doubled).
Proof.
  apply (throwing_submission_changes_nothing bucket).
  right. split; [discriminate|]. vm_compute. right. left. reflexivity.
Defined.


Lemma echo_shows_password_witness :
  Contains (JSON.quote (FormValues.password (values (holding filled))))
    (output (state (submit bucket (holding filled))))
  /\ (Forall (fun c => unescaped c = true)
        (list_ascii_of_string (FormValues.password (values (holding filled))))
      -> Contains
           (JSON.DQUOTE ++ FormValues.password (values (holding filled))
              ++ JSON.DQUOTE)
           (output (state (submit bucket (holding filled))))).
Proof.
  apply (echo_shows_password bucket (holding filled)).
  vm_compute. right. right. left. reflexivity.
Defined.

End FurtherExamples.
